(** * A dropdown widget: popup placement and open/close life cycle

    Shallow embedding of the two variants of the [Dropdown] React component:

    - [Animated]: the variant of [src/App.tsx], whose open state is the
      four-valued [DropdownStatus] and whose menu position is written to the
      inline style of the menu element;
    - [Plain]: the variant with a boolean [isOpen] and a [menuPosition]
      state object, rendered through the [style] prop of the menu.

    Conventions of the embedding.

    - Pixel quantities (the fields of a [DOMRect], [innerHeight],
      [offsetHeight]) are JS numbers, that is IEEE 754 binary64 values: the
      primitive [float] with its [+], [-], [<?] and [<=?].
    - A value of type [T | null] (and [T | undefined]) is an [option T]; a React
      ref is the [option] held in its [current] field.
    - A JS object used as a string-keyed map (a style object, the declarations
      of a [CSSStyleDeclaration]) is a [gmap string css_value].
    - Property access on [null] throws in JS: handlers are written in the
      [Completion] monad, where [current] of an empty ref is a [TypeError].
    - React is modelled by what it does to the component: a state setter
      called with the current value does nothing; otherwise the component is
      rendered again, refs are attached or cleared on commit, layout effects
      whose dependencies changed run next, then passive effects. A click on
      an element of the portal bubbles along the React tree, hence to the
      trigger button that encloses [<DropdownMenu/>].
    - The host callback [onSelect] is modelled by the log of its calls.
    - The browser's layout (the trigger's box, the menu's height, the window's
      height) is part of the state. It changes with a [Resize] event, for
      which the component has a listener, and with a [LayoutChange] event (a
      scroll, a change of the trigger's text), for which it has none. *)

From Stdlib Require Import Floats ZArith Lia.
From stdpp Require Import base decidable option list strings gmap fin_maps.

Open Scope float_scope.

(** ** Values shared by both variants *)

(** [type Option = { id: string; label: string }] *)
Record Option := { id : string; label : string }.

#[global] Instance Option_eq_dec : EqDecision Option.
Proof. solve_decision. Defined.

(** The fields of [getBoundingClientRect()] that the component reads. *)
Module Rect.
Record DOMRect := { x : float; top : float; bottom : float; width : float }.
End Rect.
Abbreviation DOMRect := Rect.DOMRect.

(** What the browser would measure: the trigger's bounding box, the height of
    the menu when it is in the document (the [height] of its bounding box for
    the four-state variant, its [offsetHeight] for the two-state one), and
    [window.innerHeight]. *)
Record Layout := { triggerRect : DOMRect; menuHeight : float; innerHeight : float }.

(** [type PositionCoordinates] of the boolean variant; [None] is [null]. *)
Module Pos.
Record PositionCoordinates :=
  { top : option float; bottom : option float; left : option float;
    width : option float }.
End Pos.
Abbreviation PositionCoordinates := Pos.PositionCoordinates.

(** A CSS value as the code hands it over: a length in pixels (the template
    [`${n}px`] given to [setProperty]), a bare number of a React style object,
    or a keyword. *)
Inductive css_value := Px (n : float) | Num (n : float) | Kw (s : string).

(** *** JavaScript completions *)

Inductive JsError := TypeError.

Inductive Completion (A : Type) : Type :=
  | Normal (a : A)
  | Throw (e : JsError).
Arguments Normal {A} a.
Arguments Throw {A} e.

#[global] Instance Completion_ret : MRet Completion := fun A a => Normal a.
#[global] Instance Completion_bind : MBind Completion := fun A B k m =>
  match m with
  | Normal a => k a
  | Throw e => Throw e
  end.

(** [ref.current.member]: reading a member of [null] is a [TypeError]. *)
Definition current {A} (ref : option A) : Completion A :=
  match ref with
  | Some a => Normal a
  | None => Throw TypeError
  end.

(** *** Truthiness *)

(** [!!ref.current] *)
Definition truthy_ref {A} (ref : option A) : bool :=
  match ref with Some _ => true | None => false end.

(** [!!n] for [n : number | null]: [null], [0], [-0] and [NaN] are falsy. *)
Definition truthy_num (n : option float) : bool :=
  match n with Some v => negb (is_zero v || is_nan v) | None => false end.

(** [!!s] for [s : string | undefined]: [undefined] and the empty string are falsy. *)
Definition truthy_str (s : option string) : bool :=
  match s with Some v => negb (String.eqb v EmptyString) | None => false end.

(** [n || d] on numbers, where [n] may be [undefined]. *)
Definition or_num (n : option float) (d : float) : float :=
  match n with
  | Some v => if truthy_num (Some v) then v else d
  | None => d
  end.

(** [s || d] on strings, where [s] may be [undefined]. *)
Definition or_str (s : option string) (d : string) : string :=
  match s with
  | Some v => if truthy_str (Some v) then v else d
  | None => d
  end.

(** *** The trigger's text *)

(** [options.find(({ id }) => id === selectedOptionId)]; [selectedOptionId] is
    [string | null | undefined], and neither [null] nor [undefined] is
    strictly equal to a string. *)
Definition selectedOption (options : list Option) (selectedOptionId : option string)
  : option Option :=
  List.find (fun o => match selectedOptionId with
                      | Some s => String.eqb (id o) s
                      | None => false
                      end) options.

(** [{selectedOption?.label || "Select ..."}] *)
Definition triggerText (options : list Option) (selectedOptionId : option string)
  : string :=
  or_str (label <$> selectedOption options selectedOptionId) "Select ...".

(** *** The document *)

(** The elements of the page: [App] renders [div.App > div.container > button.dropdown],
    the button holds [div.chevron-icon], and the portal puts
    [ul.dropdown-menu > li.dropdown-menu-item > button.dropdown-menu-button]
    under [document.body]; [Other k] is any other element of the document. *)
Inductive Node :=
  | Body
  | AppDiv
  | Container
  | TriggerButton
  | ChevronIcon
  | MenuList
  | MenuItem (i : nat)
  | MenuButton (i : nat)
  | Other (k : nat).

#[global] Instance Node_eq_dec : EqDecision Node.
Proof. solve_decision. Defined.

Definition parentNode (n : Node) : option Node :=
  match n with
  | Body => None
  | AppDiv => Some Body
  | Container => Some AppDiv
  | TriggerButton => Some Container
  | ChevronIcon => Some TriggerButton
  | MenuList => Some Body
  | MenuItem _ => Some MenuList
  | MenuButton i => Some (MenuItem i)
  | Other _ => Some Body
  end.

Fixpoint inclusive_descendant (depth : nat) (a b : Node) : bool :=
  if decide (a = b) then true
  else match depth, parentNode b with
       | S d, Some p => inclusive_descendant d a p
       | _, _ => false
       end.

(** [a.contains(b)]: [b] is [a] or a descendant of [a]; no element is deeper
    than four levels below [Body]. *)
Definition contains (a b : Node) : bool := inclusive_descendant 4 a b.

(** The spec's placement rule, in its words: with [h] the measure of the menu's
    height (none counting as 0), if [trigger.bottom + menuHeight] exceeds the
    viewport height the menu's bottom edge is anchored at
    [viewportHeight - trigger.top], otherwise its top edge at [trigger.bottom];
    [left] and [width] are the trigger's. *)
Definition spec_position (r : DOMRect) (h W : float) : PositionCoordinates :=
  if W <? Rect.bottom r + or_num (Some h) 0
  then {| Pos.top := None; Pos.bottom := Some (W - Rect.top r);
          Pos.left := Some (Rect.x r); Pos.width := Some (Rect.width r) |}
  else {| Pos.top := Some (Rect.bottom r); Pos.bottom := None;
          Pos.left := Some (Rect.x r); Pos.width := Some (Rect.width r) |}.


(** [DropdownProps] without the callback. *)
Record DropdownProps := { options : list Option; selectedOptionId : option string }.

(** One rendered [<li><button onClick=...>label</button></li>]: its React key,
    its text, and the argument [{ id, label }] that its [onClick] closure
    passes to [onSelect]. *)
Record MenuEntry := { key : string; text : string; onClick : Option }.

(** [options.map(({ id, label }) => ...)] of both [DropdownMenu] renderers. *)
Definition menuEntries (opts : list Option) : list MenuEntry :=
  map (fun o => {| key := id o; text := label o;
                   onClick := {| id := id o; label := label o |} |}) opts.

Inductive PointerKind := mousedown | touchstart.

(** The events the component has a listener for, and two that it has none
    for: [FocusMove], by which the browser moves the focus (a tab key, a
    pointer press on a button), and [LayoutChange], by which the page is laid
    out anew without a resize of the window (a scroll, a change of the
    trigger's text). *)
Inductive Event :=
  | TriggerClick
  | AnimationEnd
  | PointerDown (k : PointerKind) (target : Node)
  | Resize (l : Layout)
  | OptionClick (i : nat)
  | FocusMove (n : Node)
  | LayoutChange (l : Layout).

(** Whether an event is a change of the layout that comes without a resize. *)
Definition is_layoutChange (ev : Event) : bool :=
  match ev with
  | LayoutChange _ => true
  | _ => false
  end.

(** ** The four-state variant ([src/App.tsx]) *)

Module Animated.

Inductive DropdownStatus := CLOSED | OPEN | CLOSING | OPENING.

#[global] Instance DropdownStatus_eq_dec : EqDecision DropdownStatus.
Proof. solve_decision. Defined.

Definition OPEN_DROPDOWN_STATUSES : list DropdownStatus := [OPEN; OPENING].
Definition CLOSED_DROPDOWN_STATUSES : list DropdownStatus := [CLOSED; CLOSING].

(** [Array.prototype.includes] *)
Definition includes (l : list DropdownStatus) (s : DropdownStatus) : bool :=
  bool_decide (s ∈ l).

(** The mounted [ul.dropdown-menu]: its inline style declarations and the
    [animationend] listener registered on it, represented by the
    [dropdownStatus] that the closure [onTransitionEnd] has captured. *)
Record HTMLUListElement :=
  { style : gmap string css_value; animationend : option DropdownStatus }.

Record State := {
  dropdownStatus : DropdownStatus;
  dropdownRef : option Node;
  menuRef : option HTMLUListElement;
  layout : Layout;
  activeElement : Node;
  onSelectCalls : list Option;
}.

Definition set_dropdownStatus (s : DropdownStatus) (st : State) : State :=
  {| dropdownStatus := s; dropdownRef := dropdownRef st; menuRef := menuRef st;
     layout := layout st; activeElement := activeElement st;
     onSelectCalls := onSelectCalls st |}.

Definition set_menuRef (m : option HTMLUListElement) (st : State) : State :=
  {| dropdownStatus := dropdownStatus st; dropdownRef := dropdownRef st; menuRef := m;
     layout := layout st; activeElement := activeElement st;
     onSelectCalls := onSelectCalls st |}.

Definition set_layout (l : Layout) (st : State) : State :=
  {| dropdownStatus := dropdownStatus st; dropdownRef := dropdownRef st;
     menuRef := menuRef st; layout := l; activeElement := activeElement st;
     onSelectCalls := onSelectCalls st |}.

Definition set_activeElement (n : Node) (st : State) : State :=
  {| dropdownStatus := dropdownStatus st; dropdownRef := dropdownRef st;
     menuRef := menuRef st; layout := layout st; activeElement := n;
     onSelectCalls := onSelectCalls st |}.

(** A call [onSelect(o)] of the host's callback. *)
Definition onSelect (o : Option) (st : State) : State :=
  {| dropdownStatus := dropdownStatus st; dropdownRef := dropdownRef st;
     menuRef := menuRef st; layout := layout st; activeElement := activeElement st;
     onSelectCalls := onSelectCalls st ++ [o] |}.

(** [style.setProperty(name, value)]; a [null] value is the empty string, which
    removes the declaration. *)
Definition setProperty (name : string) (value : option css_value)
    (m : HTMLUListElement) : HTMLUListElement :=
  {| style := match value with
              | Some v => <[name := v]> (style m)
              | None => delete name (style m)
              end;
     animationend := animationend m |}.

(** [DropdownMenu]: [null] when closed, else the list of option buttons. *)
Definition DropdownMenu (opts : list Option) (s : DropdownStatus)
  : option (list MenuEntry) :=
  if decide (s = CLOSED) then None else Some (menuEntries opts).

Definition updateMenuCoordinates (st : State) : Completion State :=
  if negb (truthy_ref (dropdownRef st)) || negb (truthy_ref (menuRef st))
  then Normal st
  else
    _ ← current (dropdownRef st);
    let dropdownRect := triggerRect (layout st) in
    let menuHeight := or_num ((fun _ => menuHeight (layout st)) <$> menuRef st) 0 in
    let windowHeight := innerHeight (layout st) in
    let shouldRenderMenuUpwards :=
      windowHeight <? Rect.bottom dropdownRect + menuHeight in
    let top := if shouldRenderMenuUpwards then None
               else Some (Px (Rect.bottom dropdownRect)) in
    let bottom := if shouldRenderMenuUpwards
                  then Some (Px (windowHeight - Rect.top dropdownRect)) else None in
    let left := Some (Px (Rect.x dropdownRect)) in
    let width := Some (Px (Rect.width dropdownRect)) in
    menu ← current (menuRef st);
    Normal (set_menuRef
              (Some (setProperty "width" width
                       (setProperty "left" left
                          (setProperty "bottom" bottom
                             (setProperty "top" top menu))))) st).

(** Commit of a render with status [s]: the menu element is created when
    [DropdownMenu] starts to return a list, kept while it does, and removed
    (its ref cleared, the focus it held dropped to the body) when it returns
    [null]. *)
Definition commit (p : DropdownProps) (s : DropdownStatus) (st : State) : State :=
  match DropdownMenu (options p) s, menuRef st with
  | None, _ =>
      set_menuRef None
        (if contains MenuList (activeElement st) then set_activeElement Body st else st)
  | Some _, None =>
      set_menuRef (Some {| style := ∅; animationend := None |}) st
  | Some _, Some _ => st
  end.

(** [useLayoutEffect(..., [dropdownStatus])] *)
Definition layoutEffect (st : State) : Completion State :=
  if includes OPEN_DROPDOWN_STATUSES (dropdownStatus st)
  then updateMenuCoordinates st
  else Normal st.

(** [useEffect(..., [dropdownStatus])]: the previous listener is removed by the
    clean-up, and a new [onTransitionEnd], closed over the status of this
    render, is added unless [menuRef.current] is [null]. *)
Definition animationEffect (st : State) : State :=
  match menuRef st with
  | None => st
  | Some menuElement =>
      set_menuRef (Some {| style := style menuElement;
                           animationend := Some (dropdownStatus st) |}) st
  end.

Definition setDropdownStatus (p : DropdownProps) (s : DropdownStatus) (st : State)
  : Completion State :=
  if decide (s = dropdownStatus st) then Normal st
  else
    st' ← layoutEffect (commit p s (set_dropdownStatus s st));
    Normal (animationEffect st').

Definition openDropdown (p : DropdownProps) (st : State) : Completion State :=
  setDropdownStatus p OPENING st.

Definition closeDropdown (p : DropdownProps) (st : State) : Completion State :=
  setDropdownStatus p CLOSING st.

Definition onTriggerClick (p : DropdownProps) (st : State) : Completion State :=
  if includes CLOSED_DROPDOWN_STATUSES (dropdownStatus st) then openDropdown p st
  else if includes OPEN_DROPDOWN_STATUSES (dropdownStatus st) then closeDropdown p st
  else Normal st.

(** [onTransitionEnd], closed over the [dropdownStatus] of the render that
    registered it. *)
Definition onTransitionEnd (p : DropdownProps) (dropdownStatus : DropdownStatus)
    (st : State) : Completion State :=
  st' ← (if decide (dropdownStatus = CLOSING) then setDropdownStatus p CLOSED st
         else Normal st);
  if decide (dropdownStatus = OPENING) then setDropdownStatus p OPEN st'
  else Normal st'.

(** The document-level [mousedown]/[touchstart] listener. *)
Definition listener (p : DropdownProps) (target : Node) (st : State)
  : Completion State :=
  if negb (truthy_ref (menuRef st)) then Normal st
  else
    _ ← current (menuRef st);
    if contains MenuList target then Normal st
    else if match dropdownRef st with
            | Some dropdown => contains dropdown target
            | None => false
            end
    then Normal st
    else closeDropdown p st.

Definition resizeListener (st : State) : Completion State :=
  updateMenuCoordinates st.

(** Whether the browser can focus [n]: the trigger, the body, or a button of
    the rendered menu. *)
Definition focusable (p : DropdownProps) (st : State) (n : Node) : bool :=
  match n with
  | Body | TriggerButton => true
  | MenuButton i => truthy_ref (menuRef st) && bool_decide (i < length (options p))%nat
  | _ => false
  end.

(** Dispatch of one event to the handlers that listen for it. A click on an
    option button runs its [onClick] and then, bubbling along the React tree,
    the [onClick] of the trigger. *)
Definition step (p : DropdownProps) (ev : Event) (st : State) : Completion State :=
  match ev with
  | TriggerClick => onTriggerClick p st
  | AnimationEnd =>
      match menuRef st with
      | Some menuElement =>
          match animationend menuElement with
          | Some captured => onTransitionEnd p captured st
          | None => Normal st
          end
      | None => Normal st
      end
  | PointerDown _ target => listener p target st
  | Resize l => resizeListener (set_layout l st)
  | OptionClick i =>
      match DropdownMenu (options p) (dropdownStatus st) with
      | Some entries =>
          match entries !! i with
          | Some entry => onTriggerClick p (onSelect (onClick entry) st)
          | None => Normal st
          end
      | None => Normal st
      end
  | FocusMove n =>
      Normal (if focusable p st n then set_activeElement n st else st)
  | LayoutChange l => Normal (set_layout l st)
  end.

(** The component right after it is mounted: closed, the trigger attached,
    no menu element, nothing selected yet. *)
Definition mount (l : Layout) : State :=
  {| dropdownStatus := CLOSED; dropdownRef := Some TriggerButton; menuRef := None;
     layout := l; activeElement := Body; onSelectCalls := [] |}.

Inductive reachable (p : DropdownProps) : State -> Prop :=
  | reach_mount l : reachable p (mount l)
  | reach_step ev st st' :
      reachable p st -> step p ev st = Normal st' -> reachable p st'.

Fixpoint run (p : DropdownProps) (evs : list Event) (st : State) : Completion State :=
  match evs with
  | [] => Normal st
  | ev :: evs' => st' ← step p ev st; run p evs' st'
  end.

(** The state after [evs], counted from a mounted component. *)
Definition after (p : DropdownProps) (evs : list Event) (l : Layout) : State :=
  match run p evs (mount l) with
  | Normal st => st
  | Throw _ => mount l
  end.

(** The position as the menu element's inline style holds it. *)
Definition inlinePosition (m : HTMLUListElement)
  : option css_value * option css_value * option css_value * option css_value :=
  (style m !! "top", style m !! "bottom", style m !! "left", style m !! "width").

Definition pxPosition (q : PositionCoordinates)
  : option css_value * option css_value * option css_value * option css_value :=
  (Px <$> Pos.top q, Px <$> Pos.bottom q, Px <$> Pos.left q, Px <$> Pos.width q).

(** What every reachable state satisfies: the trigger is attached; the menu
    element exists exactly when the status is not [CLOSED], and it then
    carries the [animationend] listener of the current render. *)
Definition wf (st : State) : Prop :=
  dropdownRef st = Some TriggerButton /\
  (dropdownStatus st = CLOSED -> menuRef st = None) /\
  (dropdownStatus st <> CLOSED ->
   exists m, menuRef st = Some m /\ animationend m = Some (dropdownStatus st)).

(** The inline style of a mounted menu holds the placement of the layout
    [l]. *)
Definition positioned_at (l : Layout) (st : State) : Prop :=
  forall m, menuRef st = Some m ->
    inlinePosition m
    = pxPosition (spec_position (triggerRect l) (menuHeight l) (innerHeight l)).

(** What every reachable state satisfies: the inline style of a mounted menu
    holds the placement of some layout, the one of the latest recompute. *)
Definition positioned (st : State) : Prop := exists l, positioned_at l st.

(** The inline style of a mounted menu holds the placement of the current
    layout. *)
Definition current (st : State) : Prop := positioned_at (layout st) st.

(** The spec's invariant on [left] and [width], in its words: they mirror the
    trigger's current bounding box when the menu is visible. *)
Definition mirrors (st : State) : Prop :=
  forall m, menuRef st = Some m ->
    style m !! "left" = Some (Px (Rect.x (triggerRect (layout st)))) /\
    style m !! "width" = Some (Px (Rect.width (triggerRect (layout st)))).

(** The transitions that the spec's diagram lists, in its words. *)
Inductive spec_transition : DropdownStatus -> Event -> DropdownStatus -> Prop :=
  | spec_open : spec_transition CLOSED TriggerClick OPENING
  | spec_opened : spec_transition OPENING AnimationEnd OPEN
  | spec_close : spec_transition OPEN TriggerClick CLOSING
  | spec_closed : spec_transition CLOSING AnimationEnd CLOSED.

(** The transitions of the code: a reachable state with status [s] goes to a
    state with status [s'] on event [ev]. *)
Definition transition (p : DropdownProps) (s : DropdownStatus) (ev : Event)
    (s' : DropdownStatus) : Prop :=
  exists st st', reachable p st /\ dropdownStatus st = s /\
                 step p ev st = Normal st' /\ dropdownStatus st' = s'.

(** The status that a click on the trigger is proved to lead to. *)
Definition toggled (s : DropdownStatus) : DropdownStatus :=
  match s with
  | CLOSED | CLOSING => OPENING
  | OPEN | OPENING => CLOSING
  end.

(** The status that the end of an animation is proved to lead to. *)
Definition settled (s : DropdownStatus) : DropdownStatus :=
  match s with
  | OPENING => OPEN
  | CLOSING => CLOSED
  | s => s
  end.

End Animated.

(** ** The two-state variant *)

Module Plain.

(** The mounted [ul.dropdown-menu]: the style object it was last rendered
    with. *)
Record HTMLUListElement := { style : gmap string css_value }.

Record State := {
  isOpen : bool;
  menuPosition : PositionCoordinates;
  dropdownRef : option Node;
  menuRef : option HTMLUListElement;
  layout : Layout;
  activeElement : Node;
  onSelectCalls : list Option;
}.

Definition set_isOpen (b : bool) (st : State) : State :=
  {| isOpen := b; menuPosition := menuPosition st; dropdownRef := dropdownRef st;
     menuRef := menuRef st; layout := layout st; activeElement := activeElement st;
     onSelectCalls := onSelectCalls st |}.

Definition set_menuPosition (q : PositionCoordinates) (st : State) : State :=
  {| isOpen := isOpen st; menuPosition := q; dropdownRef := dropdownRef st;
     menuRef := menuRef st; layout := layout st; activeElement := activeElement st;
     onSelectCalls := onSelectCalls st |}.

Definition set_menuRef (m : option HTMLUListElement) (st : State) : State :=
  {| isOpen := isOpen st; menuPosition := menuPosition st;
     dropdownRef := dropdownRef st; menuRef := m; layout := layout st;
     activeElement := activeElement st; onSelectCalls := onSelectCalls st |}.

Definition set_layout (l : Layout) (st : State) : State :=
  {| isOpen := isOpen st; menuPosition := menuPosition st;
     dropdownRef := dropdownRef st; menuRef := menuRef st; layout := l;
     activeElement := activeElement st; onSelectCalls := onSelectCalls st |}.

Definition set_activeElement (n : Node) (st : State) : State :=
  {| isOpen := isOpen st; menuPosition := menuPosition st;
     dropdownRef := dropdownRef st; menuRef := menuRef st; layout := layout st;
     activeElement := n; onSelectCalls := onSelectCalls st |}.

(** A call [onSelect(o)] of the host's callback. *)
Definition onSelect (o : Option) (st : State) : State :=
  {| isOpen := isOpen st; menuPosition := menuPosition st;
     dropdownRef := dropdownRef st; menuRef := menuRef st; layout := layout st;
     activeElement := activeElement st; onSelectCalls := onSelectCalls st ++ [o] |}.

(** [...(v && { name: v })]: spreading a falsy value adds nothing. *)
Definition spread_and (name : string) (v : option float) (obj : gmap string css_value)
  : gmap string css_value :=
  match v with
  | Some n => if truthy_num (Some n) then <[name := Num n]> obj else obj
  | None => obj
  end.

(** The [style] prop that [DropdownMenu] gives to the [ul]. *)
Definition menuStyle (menuPosition : PositionCoordinates) : gmap string css_value :=
  let top := Pos.top menuPosition in
  let width := Pos.width menuPosition in
  let left := Pos.left menuPosition in
  let bottom := Pos.bottom menuPosition in
  spread_and "bottom" bottom
    (spread_and "top" top
       (spread_and "width" width
          (spread_and "left" left
             (<["position" := Kw "fixed"]> ∅)))).

(** [DropdownMenu]: the style of the list and its option buttons. *)
Definition DropdownMenu (opts : list Option) (menuPosition : PositionCoordinates)
  : gmap string css_value * list MenuEntry :=
  (menuStyle menuPosition, menuEntries opts).

(** Commit of a render: [{isOpen && <DropdownMenu .../>}] mounts the menu with
    the style of the current [menuPosition], or removes it (its ref cleared,
    the focus it held dropped to the body). *)
Definition render (p : DropdownProps) (st : State) : State :=
  if isOpen st
  then set_menuRef
         (Some {| style := fst (DropdownMenu (options p) (menuPosition st)) |}) st
  else set_menuRef None
         (if contains MenuList (activeElement st) then set_activeElement Body st
          else st).

(** [setMenuPosition(q)]: [q] is a new object, so the component renders again. *)
Definition setMenuPosition (p : DropdownProps) (q : PositionCoordinates) (st : State)
  : State :=
  render p (set_menuPosition q st).

Definition updateMenuCoordinates (p : DropdownProps) (st : State) : Completion State :=
  if negb (truthy_ref (dropdownRef st)) then Normal st
  else
    _ ← current (dropdownRef st);
    let dropdownRect := triggerRect (layout st) in
    let menuHeight := or_num ((fun _ => menuHeight (layout st)) <$> menuRef st) 0 in
    let windowHeight := innerHeight (layout st) in
    let shouldRenderMenuUpwards :=
      windowHeight <? Rect.bottom dropdownRect + menuHeight in
    Normal (setMenuPosition p
              {| Pos.top := if shouldRenderMenuUpwards then None
                            else Some (Rect.bottom dropdownRect);
                 Pos.bottom := if shouldRenderMenuUpwards
                               then Some (windowHeight - Rect.top dropdownRect)
                               else None;
                 Pos.left := Some (Rect.x dropdownRect);
                 Pos.width := Some (Rect.width dropdownRect) |} st).

(** [useLayoutEffect(..., [isOpen])] *)
Definition layoutEffect (p : DropdownProps) (st : State) : Completion State :=
  if isOpen st then updateMenuCoordinates p st else Normal st.

(** The render that a change of [isOpen] to [b] commits, before its layout
    effect has run. *)
Definition commitIsOpen (p : DropdownProps) (b : bool) (st : State) : State :=
  render p (set_isOpen b st).

Definition setIsOpen (p : DropdownProps) (b : bool) (st : State) : Completion State :=
  if decide (b = isOpen st) then Normal st
  else layoutEffect p (commitIsOpen p b st).

(** [onClick={() => setIsOpen(prevState => !prevState)}] *)
Definition onTriggerClick (p : DropdownProps) (st : State) : Completion State :=
  setIsOpen p (negb (isOpen st)) st.

(** The document-level [mousedown]/[touchstart] listener. *)
Definition listener (p : DropdownProps) (target : Node) (st : State)
  : Completion State :=
  if negb (truthy_ref (menuRef st)) then Normal st
  else
    _ ← current (menuRef st);
    if contains MenuList target then Normal st
    else if match dropdownRef st with
            | Some dropdown => contains dropdown target
            | None => false
            end
    then Normal st
    else setIsOpen p false st.

Definition resizeListener (p : DropdownProps) (st : State) : Completion State :=
  updateMenuCoordinates p st.

Definition focusable (p : DropdownProps) (st : State) (n : Node) : bool :=
  match n with
  | Body | TriggerButton => true
  | MenuButton i => truthy_ref (menuRef st) && bool_decide (i < length (options p))%nat
  | _ => false
  end.

(** Dispatch of one event; the variant has no [animationend] listener. *)
Definition step (p : DropdownProps) (ev : Event) (st : State) : Completion State :=
  match ev with
  | TriggerClick => onTriggerClick p st
  | AnimationEnd => Normal st
  | PointerDown _ target => listener p target st
  | Resize l => resizeListener p (set_layout l st)
  | OptionClick i =>
      if isOpen st
      then match snd (DropdownMenu (options p) (menuPosition st)) !! i with
           | Some entry => onTriggerClick p (onSelect (onClick entry) st)
           | None => Normal st
           end
      else Normal st
  | FocusMove n =>
      Normal (if focusable p st n then set_activeElement n st else st)
  | LayoutChange l => Normal (set_layout l st)
  end.

(** The component right after it is mounted. *)
Definition mount (l : Layout) : State :=
  {| isOpen := false;
     menuPosition := {| Pos.top := None; Pos.left := None; Pos.width := None;
                        Pos.bottom := None |};
     dropdownRef := Some TriggerButton; menuRef := None; layout := l;
     activeElement := Body; onSelectCalls := [] |}.

Inductive reachable (p : DropdownProps) : State -> Prop :=
  | reach_mount l : reachable p (mount l)
  | reach_step ev st st' :
      reachable p st -> step p ev st = Normal st' -> reachable p st'.

Fixpoint run (p : DropdownProps) (evs : list Event) (st : State) : Completion State :=
  match evs with
  | [] => Normal st
  | ev :: evs' => st' ← step p ev st; run p evs' st'
  end.

(** The state after [evs], counted from a mounted component. *)
Definition after (p : DropdownProps) (evs : list Event) (l : Layout) : State :=
  match run p evs (mount l) with
  | Normal st => st
  | Throw _ => mount l
  end.

(** The states in which a render can be observed: the reachable ones, and the
    commit of a change of [isOpen] whose layout effect has yet to run. *)
Inductive rendered (p : DropdownProps) : State -> Prop :=
  | rendered_settled st : reachable p st -> rendered p st
  | rendered_commit st b :
      reachable p st -> b <> isOpen st -> rendered p (commitIsOpen p b st).

(** [menuRef.current?.offsetHeight || 0] *)
Definition measuredMenuHeight (st : State) : float :=
  or_num ((fun _ => menuHeight (layout st)) <$> menuRef st) 0.

(** What every reachable state satisfies: the trigger is attached, and the
    menu element exists exactly when [isOpen] holds, styled by the current
    [menuPosition]. *)
Definition wf (p : DropdownProps) (st : State) : Prop :=
  dropdownRef st = Some TriggerButton /\
  truthy_ref (menuRef st) = isOpen st /\
  (forall m, menuRef st = Some m -> style m = menuStyle (menuPosition st)) /\
  (contains MenuList (activeElement st) = true -> isOpen st = true).

(** While the menu is open, [menuPosition] is the placement of the layout
    [l]. *)
Definition positioned_at (l : Layout) (st : State) : Prop :=
  isOpen st = true ->
  menuPosition st = spec_position (triggerRect l) (menuHeight l) (innerHeight l).

(** What every reachable state satisfies: while the menu is open,
    [menuPosition] is the placement of some layout, the one of the latest
    recompute. *)
Definition positioned (st : State) : Prop := exists l, positioned_at l st.

(** While the menu is open, [menuPosition] is the placement of the current
    layout. *)
Definition current (st : State) : Prop := positioned_at (layout st) st.

(** The spec's invariant on [left] and [width], in its words: they mirror the
    trigger's current bounding box when the menu is visible. *)
Definition mirrors (st : State) : Prop :=
  isOpen st = true ->
  Pos.left (menuPosition st) = Some (Rect.x (triggerRect (layout st))) /\
  Pos.width (menuPosition st) = Some (Rect.width (triggerRect (layout st))).

End Plain.

(** ** Sample inputs *)

(** The first options of the list in [App]. *)
Definition sample_props : DropdownProps :=
  {| options := [ {| id := "1"; label := "Option 1" |};
                  {| id := "2"; label := "Option 2" |} ];
     selectedOptionId := None |}.

(** The spec's rectangles: a trigger at 500..530 and one at 580..610, a menu
    40 high, a window 600 high. *)
Definition layout_below : Layout :=
  {| triggerRect := {| Rect.x := 100; Rect.top := 500; Rect.bottom := 530;
                       Rect.width := 200 |};
     menuHeight := 40; innerHeight := 600 |}.

Definition layout_above : Layout :=
  {| triggerRect := {| Rect.x := 100; Rect.top := 580; Rect.bottom := 610;
                       Rect.width := 200 |};
     menuHeight := 40; innerHeight := 600 |}.

(** A trigger whose bottom is 2^53, where [bottom + 1] rounds to [bottom]. *)
Definition layout_huge : Layout :=
  {| triggerRect := {| Rect.x := 100; Rect.top := 9007199254740962;
                       Rect.bottom := 9007199254740992; Rect.width := 200 |};
     menuHeight := 1; innerHeight := 9007199254740992 |}.

(** A rectangle with fractions of a pixel. *)
Definition layout_fraction : Layout :=
  {| triggerRect := {| Rect.x := 100.25; Rect.top := 500.5; Rect.bottom := 530.5;
                       Rect.width := 200.75 |};
     menuHeight := 69.5; innerHeight := 600 |}.


(** ** What the components render *)

(** [clsx(base, { name: flag, ... })]: the base class and the names whose flag
    is truthy, in order. *)
Definition clsx (base : string) (flags : list (string * bool)) : list string :=
  base :: map fst (List.filter snd flags).

Module AnimatedView.
Import Animated.

(** The [className] of the [ul] of [DropdownMenu]. *)
Definition menuClassName (dropdownStatus : DropdownStatus) : list string :=
  clsx "dropdown-menu"
    [ ("opening", bool_decide (dropdownStatus = OPENING));
      ("closing", bool_decide (dropdownStatus = CLOSING)) ].

(** The second class of the chevron [div]:
    [OPEN_DROPDOWN_STATUSES.includes(dropdownStatus) ? 'chevron-icon-open' : 'chevron-icon-closed'] *)
Definition chevronClassName (dropdownStatus : DropdownStatus) : string :=
  if includes OPEN_DROPDOWN_STATUSES dropdownStatus
  then "chevron-icon-open" else "chevron-icon-closed".

(** What [Dropdown] returns: the text of the trigger, the class of its
    chevron, and the menu ([None] when [DropdownMenu] returns [null]) with its
    class names and buttons. *)
Record View := {
  triggerLabel : string;
  chevron : string;
  menu : option (list string * list MenuEntry);
}.

Definition Dropdown (p : DropdownProps) (st : State) : View :=
  {| triggerLabel := triggerText (options p) (selectedOptionId p);
     chevron := chevronClassName (dropdownStatus st);
     menu := (fun entries => (menuClassName (dropdownStatus st), entries))
             <$> DropdownMenu (options p) (dropdownStatus st) |}.

(** The four [setProperty] calls of [updateMenuCoordinates] for layout [l],
    applied to the element [m]. *)
Definition placed (l : Layout) (m : HTMLUListElement) : HTMLUListElement :=
  let up := innerHeight l
            <? Rect.bottom (triggerRect l) + or_num (Some (menuHeight l)) 0 in
  setProperty "width" (Some (Px (Rect.width (triggerRect l))))
    (setProperty "left" (Some (Px (Rect.x (triggerRect l))))
       (setProperty "bottom"
          (if up then Some (Px (innerHeight l - Rect.top (triggerRect l))) else None)
          (setProperty "top"
             (if up then None else Some (Px (Rect.bottom (triggerRect l)))) m))).

(** The three declarations that a recompute leaves in the inline style for
    the layout [l]. *)
Definition declarations (l : Layout) : gmap string css_value :=
  if innerHeight l <? Rect.bottom (triggerRect l) + or_num (Some (menuHeight l)) 0
  then <["width" := Px (Rect.width (triggerRect l))]>
         (<["left" := Px (Rect.x (triggerRect l))]>
            (<["bottom" := Px (innerHeight l - Rect.top (triggerRect l))]> ∅))
  else <["width" := Px (Rect.width (triggerRect l))]>
         (<["left" := Px (Rect.x (triggerRect l))]>
            (<["top" := Px (Rect.bottom (triggerRect l))]> ∅)).

(** The inline style of a mounted menu is the one that the recompute writes
    to a new element for the layout [l]. *)
Definition styled_at (l : Layout) (st : State) : Prop :=
  forall m, menuRef st = Some m ->
    style m = style (placed l {| style := ∅; animationend := None |}).

(** What every reachable state satisfies: the style is the one written for
    some layout, the one of the latest recompute. *)
Definition styled (st : State) : Prop := exists l, styled_at l st.

End AnimatedView.

Module PlainView.
Import Plain.

(** One rendered option button of the two-state menu, with its
    [tabIndex={index + 1}]. *)
Record OptionButton := { entry : MenuEntry; tabIndex : nat }.

(** [options.map(({ id, label }, index) => ...)] *)
Definition optionButtons (opts : list Option) : list OptionButton :=
  imap (fun index o =>
          {| entry := {| key := id o; text := label o;
                         onClick := {| id := id o; label := label o |} |};
             tabIndex := (index + 1)%nat |}) opts.

(** The second class of the chevron [div]. *)
Definition chevronClassName (isOpen : bool) : string :=
  if isOpen then "chevron-icon-open" else "chevron-icon-closed".

(** What [Dropdown] returns: the text of the trigger, its [tabIndex], the
    class of its chevron, and, when [isOpen], the menu with its style and
    buttons. *)
Record View := {
  triggerLabel : string;
  triggerTabIndex : nat;
  chevron : string;
  menu : option (gmap string css_value * list OptionButton);
}.

Definition Dropdown (p : DropdownProps) (st : State) : View :=
  {| triggerLabel := triggerText (options p) (selectedOptionId p);
     triggerTabIndex := 0;
     chevron := chevronClassName (isOpen st);
     menu := if isOpen st
             then Some (menuStyle (menuPosition st), optionButtons (options p))
             else None |}.

End PlainView.

(** ** The host ([App], the same in both files) *)

Module App.

Definition options : list Option :=
  [ {| id := "1"; label := "Option 1" |}; {| id := "2"; label := "Option 2" |};
    {| id := "3"; label := "Option 3" |}; {| id := "4"; label := "Option 4" |};
    {| id := "5"; label := "Option 5" |}; {| id := "6"; label := "Option 6" |};
    {| id := "7"; label := "Option 7" |}; {| id := "8"; label := "Option 8" |} ].

(** [onSelect={({ id }) => setSelectedOptionId(id)}]: the new value of the
    state [selectedOptionId]. *)
Definition onSelect (o : Option) (selectedOptionId : option string) : option string :=
  Some (id o).

(** [selectedOptionId] after the calls of [onSelect] in the log, from
    [useState<string | null>(null)]. *)
Definition selectedOptionId (calls : list Option) : option string :=
  foldl (fun s o => onSelect o s) None calls.

(** The props that a host with the option list [opts] and the state and
    callback of [App] gives to [Dropdown] once [onSelect] has had the calls
    [calls]; [App] itself has [opts = options]. *)
Definition hostProps (opts : list Option) (calls : list Option) : DropdownProps :=
  Build_DropdownProps opts (selectedOptionId calls).

Definition props (calls : list Option) : DropdownProps := hostProps options calls.

(** The states of a [Dropdown] inside such a host: each event is handled with
    the props of the host's current render. *)
Inductive reachableAnimated (opts : list Option) : Animated.State -> Prop :=
  | animated_mount l : reachableAnimated opts (Animated.mount l)
  | animated_step ev st st' :
      reachableAnimated opts st ->
      Animated.step (hostProps opts (Animated.onSelectCalls st)) ev st = Normal st' ->
      reachableAnimated opts st'.

Inductive reachablePlain (opts : list Option) : Plain.State -> Prop :=
  | plain_mount l : reachablePlain opts (Plain.mount l)
  | plain_step ev st st' :
      reachablePlain opts st ->
      Plain.step (hostProps opts (Plain.onSelectCalls st)) ev st = Normal st' ->
      reachablePlain opts st'.

End App.

(** What an event adds to the log of [onSelect]: one call for a click on the
    button of an option while the menu is rendered, nothing otherwise. *)
Definition logged (opts : list Option) (rendered : bool) (ev : Event) : list Option :=
  match ev with
  | OptionClick i =>
      match opts !! i with
      | Some o => if rendered then [ {| id := id o; label := label o |} ] else []
      | None => []
      end
  | _ => []
  end.

(** * Properties *)

(** ** Placement and the document *)

(** *** Comparisons of doubles *)

(** Apart from [NaN], the order of two doubles read one way is the opposite of
    the order read the other way. *)
Lemma SFcompare_antisym (a b : spec_float) :
  a <> S754_nan -> b <> S754_nan ->
  SFcompare b a = CompOpp <$> SFcompare a b.
Proof.
  intros Ha Hb. destruct a as [sa | sa | | sa ma ea], b as [sb | sb | | sb mb eb];
    try done; simpl; try (by destruct sa); try (by destruct sb);
    try (by destruct sa, sb).
  destruct sa, sb; try done; simpl; f_equal.
  - rewrite (Z.compare_antisym eb ea).
    destruct (eb ?= ea)%Z; simpl; try done.
    rewrite (Pos.compare_cont_antisym _ _ Eq). simpl. by rewrite CompOpp_involutive.
  - rewrite (Z.compare_antisym eb ea).
    destruct (eb ?= ea)%Z; simpl; try done.
    by rewrite (Pos.compare_cont_antisym _ _ Eq).
Qed.

Lemma is_nan_false (a : float) : is_nan a = false -> Prim2SF a <> S754_nan.
Proof.
  unfold is_nan. rewrite FloatAxioms.eqb_spec. intros H Hn. rewrite Hn in H. done.
Qed.

(** [a > b] is the negation of [a <= b] unless one of them is [NaN]. *)
Lemma ltb_negb_leb (a b : float) :
  is_nan a = false -> is_nan b = false -> (b <? a) = negb (a <=? b).
Proof.
  intros Ha%is_nan_false Hb%is_nan_false.
  rewrite FloatAxioms.ltb_spec, FloatAxioms.leb_spec.
  unfold SFltb, SFleb. rewrite (SFcompare_antisym _ _ Ha Hb).
  destruct (SFcompare (Prim2SF a) (Prim2SF b)) as [[] |] eqn:Hc; try done.
  destruct (Prim2SF a), (Prim2SF b); try done; simpl in Hc; by repeat case_match.
Qed.

(** *** The measured height *)

Lemma or_num_truthy (h : float) : truthy_num (Some h) = true -> or_num (Some h) 0 = h.
Proof. unfold or_num. by intros ->. Qed.

Lemma or_num_idem (h : option float) : or_num (Some (or_num h 0)) 0 = or_num h 0.
Proof.
  destruct h as [h |]; [| reflexivity]. simpl.
  destruct (negb (is_zero h || is_nan h)) eqn:Hh; simpl; [by rewrite Hh | reflexivity].
Qed.

Lemma spec_position_measured r h W :
  spec_position r (or_num h 0) W
  = if W <? Rect.bottom r + or_num h 0
    then {| Pos.top := None; Pos.bottom := Some (W - Rect.top r);
            Pos.left := Some (Rect.x r); Pos.width := Some (Rect.width r) |}
    else {| Pos.top := Some (Rect.bottom r); Pos.bottom := None;
            Pos.left := Some (Rect.x r); Pos.width := Some (Rect.width r) |}.
Proof. unfold spec_position. by rewrite or_num_idem. Qed.





Module AnimatedFacts.
Import Animated.

Section WithProps.
Variable p : DropdownProps.

(** The four [setProperty] calls, whatever the style held before. *)
Lemma anim_setProperty_position (m : HTMLUListElement) (r : DOMRect) (h W : float) :
  let up := W <? Rect.bottom r + or_num (Some h) 0 in
  inlinePosition
    (setProperty "width" (Some (Px (Rect.width r)))
       (setProperty "left" (Some (Px (Rect.x r)))
          (setProperty "bottom" (if up then Some (Px (W - Rect.top r)) else None)
             (setProperty "top" (if up then None else Some (Px (Rect.bottom r)))
                m))))
  = pxPosition (spec_position r h W).
Proof.
  intros up. unfold inlinePosition, pxPosition, spec_position, setProperty.
  subst up. destruct (W <? Rect.bottom r + or_num (Some h) 0);
    simpl; by simplify_map_eq.
Qed.

Lemma anim_updateMenuCoordinates_mounted st d m :
  dropdownRef st = Some d -> menuRef st = Some m ->
  exists m',
    updateMenuCoordinates st = Normal (set_menuRef (Some m') st) /\
    animationend m' = animationend m /\
    inlinePosition m'
    = pxPosition (spec_position (triggerRect (layout st)) (menuHeight (layout st))
                    (innerHeight (layout st))).
Proof.
  intros Hd Hm. unfold updateMenuCoordinates. rewrite Hd, Hm.
  cbn [truthy_ref negb orb current mbind Completion_bind fmap option_fmap option_map].
  eexists. split; [reflexivity |]. split; [reflexivity |].
  apply anim_setProperty_position.
Qed.

Lemma anim_updateMenuCoordinates_unmounted st :
  dropdownRef st = None \/ menuRef st = None ->
  updateMenuCoordinates st = Normal st.
Proof.
  intros [H | H]; unfold updateMenuCoordinates; rewrite H; simpl;
    [done | by destruct (dropdownRef st)].
Qed.

Lemma anim_updateMenuCoordinates_total st :
  exists st', updateMenuCoordinates st = Normal st' /\
              dropdownStatus st' = dropdownStatus st /\
              dropdownRef st' = dropdownRef st /\
              layout st' = layout st /\
              activeElement st' = activeElement st /\
              onSelectCalls st' = onSelectCalls st /\
              (menuRef st = None -> menuRef st' = None).
Proof.
  destruct (dropdownRef st) as [d|] eqn:Hd; [destruct (menuRef st) as [m|] eqn:Hm |].
  - destruct (anim_updateMenuCoordinates_mounted st d m Hd Hm) as (m' & -> & _).
    eexists; split; [done |]. simpl. rewrite Hd. repeat split; done.
  - rewrite anim_updateMenuCoordinates_unmounted by auto.
    exists st. rewrite Hd, Hm. repeat split; done.
  - rewrite anim_updateMenuCoordinates_unmounted by auto.
    exists st. rewrite Hd. repeat split; done.
Qed.

Ltac close_state Hp :=
  unfold wf; simpl; split_and!;
  try done; try congruence;
  try (intros _; eexists; split; reflexivity);
  try (eexists; intros ? [= <-]; exact Hp).

(** Every change of status re-renders into a well-formed, positioned state. *)
Lemma anim_setDropdownStatus_spec s st :
  wf st -> positioned st -> (s = CLOSING -> dropdownStatus st <> CLOSED) ->
  exists st',
    setDropdownStatus p s st = Normal st' /\ dropdownStatus st' = s /\
    wf st' /\ positioned st' /\ layout st' = layout st /\
    onSelectCalls st' = onSelectCalls st /\
    (s <> CLOSED -> activeElement st' = activeElement st).
Proof.
  intros (Hd & Hc & Ho) [lm Hpos] Hs. unfold setDropdownStatus.
  case_decide as Heq.
  { subst s. exists st. split_and!; try done. by exists lm. }
  unfold commit, DropdownMenu. case_decide as Hcl.
  - (* the menu is removed *)
    subst s. cbn [activeElement set_dropdownStatus].
    destruct (contains MenuList (activeElement st));
      (eexists; split; [reflexivity |]); unfold wf; simpl;
      split_and!; try done; by exists lm.
  - destruct (menuRef (set_dropdownStatus s st)) as [m|] eqn:Hm; simpl in Hm.
    + (* the menu element stays *)
      unfold layoutEffect.
      destruct (includes OPEN_DROPDOWN_STATUSES
                  (dropdownStatus (set_dropdownStatus s st))) eqn:Hin.
      * destruct (anim_updateMenuCoordinates_mounted (set_dropdownStatus s st)
                    TriggerButton m Hd Hm) as (m' & -> & Ha & Hp).
        eexists. split; [reflexivity |]. close_state Hp.
      * eexists. split; [reflexivity |]. unfold animationEffect.
        simpl. rewrite Hm. specialize (Hpos m Hm). close_state Hpos.
    + (* the menu element is created *)
      assert (dropdownStatus st = CLOSED) as Hst.
      { destruct (decide (dropdownStatus st = CLOSED)) as [|Hne]; [done |].
        destruct (Ho Hne) as (m & Hm' & _). congruence. }
      assert (includes OPEN_DROPDOWN_STATUSES s = true) as Hin.
      { destruct s; try done. by destruct Hs. }
      unfold layoutEffect. simpl. rewrite Hin.
      edestruct (anim_updateMenuCoordinates_mounted
                   (set_menuRef (Some {| style := ∅; animationend := None |})
                      (set_dropdownStatus s st)) TriggerButton)
        as (m' & -> & Ha & Hp); [exact Hd | reflexivity |].
      eexists. split; [reflexivity |]. close_state Hp.
Qed.

Lemma anim_onTriggerClick_spec st :
  wf st -> positioned st ->
  exists st',
    onTriggerClick p st = Normal st' /\
    dropdownStatus st' = toggled (dropdownStatus st) /\
    wf st' /\ positioned st' /\ layout st' = layout st /\
    onSelectCalls st' = onSelectCalls st /\
    activeElement st' = activeElement st.
Proof.
  intros Hwf Hpos. unfold onTriggerClick, openDropdown, closeDropdown.
  destruct (dropdownStatus st) eqn:Hs; simpl.
  - destruct (anim_setDropdownStatus_spec OPENING st Hwf Hpos)
      as (st' & -> & ? & ? & ? & ? & ? & Hf); [done |].
    exists st'. split_and!; try done. by apply Hf.
  - destruct (anim_setDropdownStatus_spec CLOSING st Hwf Hpos)
      as (st' & -> & ? & ? & ? & ? & ? & Hf); [congruence |].
    exists st'. split_and!; try done. by apply Hf.
  - destruct (anim_setDropdownStatus_spec OPENING st Hwf Hpos)
      as (st' & -> & ? & ? & ? & ? & ? & Hf); [done |].
    exists st'. split_and!; try done. by apply Hf.
  - destruct (anim_setDropdownStatus_spec CLOSING st Hwf Hpos)
      as (st' & -> & ? & ? & ? & ? & ? & Hf); [congruence |].
    exists st'. split_and!; try done. by apply Hf.
Qed.

Lemma anim_onTransitionEnd_spec st :
  wf st -> positioned st ->
  exists st',
    onTransitionEnd p (dropdownStatus st) st = Normal st' /\
    dropdownStatus st' = settled (dropdownStatus st) /\
    wf st' /\ positioned st' /\ layout st' = layout st /\
    onSelectCalls st' = onSelectCalls st.
Proof.
  intros Hwf Hpos. unfold onTransitionEnd.
  destruct (dropdownStatus st) eqn:Hs; simpl.
  - exists st. by rewrite Hs.
  - exists st. by rewrite Hs.
  - destruct (anim_setDropdownStatus_spec CLOSED st Hwf Hpos)
      as (st' & -> & ? & ? & ? & ? & ? & _); [done |].
    exists st'. by split_and!.
  - destruct (anim_setDropdownStatus_spec OPEN st Hwf Hpos)
      as (st' & -> & ? & ? & ? & ? & ? & _); [done |].
    exists st'. by split_and!.
Qed.

(** The listener closes on a target outside both elements, and only then. *)
Lemma anim_listener_spec target st :
  wf st -> positioned st ->
  exists st',
    listener p target st = Normal st' /\ wf st' /\ positioned st' /\
    layout st' = layout st /\ onSelectCalls st' = onSelectCalls st /\
    (contains MenuList target || contains TriggerButton target = true -> st' = st) /\
    (dropdownStatus st = CLOSED -> st' = st) /\
    (contains MenuList target = false -> contains TriggerButton target = false ->
     dropdownStatus st <> CLOSED -> dropdownStatus st' = CLOSING).
Proof.
  intros Hwf Hpos. pose proof Hwf as (Hd & Hc & Ho). unfold listener.
  destruct (decide (dropdownStatus st = CLOSED)) as [Hcl | Hop].
  { rewrite (Hc Hcl). simpl. exists st. by split_and!. }
  destruct (Ho Hop) as (m & Hm & _). rewrite Hm, Hd. simpl.
  destruct (contains MenuList target) eqn:Hin; simpl.
  { exists st. by split_and!. }
  destruct (contains TriggerButton target) eqn:Hin'; simpl.
  { exists st. by split_and!. }
  destruct (anim_setDropdownStatus_spec CLOSING st Hwf Hpos)
    as (st' & Hst' & ? & ? & ? & ? & ? & _); [done |].
  unfold closeDropdown. rewrite Hst'. exists st'. by split_and!.
Qed.

(** A resize measures again and stores the placement for the new layout. *)
Lemma anim_resizeListener_spec l st :
  wf st ->
  exists st',
    resizeListener (set_layout l st) = Normal st' /\
    dropdownStatus st' = dropdownStatus st /\
    wf st' /\ current st' /\ layout st' = l /\
    onSelectCalls st' = onSelectCalls st /\
    activeElement st' = activeElement st.
Proof.
  intros (Hd & Hc & Ho). unfold resizeListener.
  destruct (menuRef st) as [m|] eqn:Hm.
  - destruct (anim_updateMenuCoordinates_mounted (set_layout l st) TriggerButton m)
      as (m' & -> & Ha & Hp); [done.. |].
    eexists. split; [reflexivity |].
    assert (dropdownStatus st <> CLOSED) as Hop by (intros Hcl; by specialize (Hc Hcl)).
    destruct (Ho Hop) as (m0 & ? & Hl). simplify_eq.
    unfold wf, current, positioned_at; simpl; split_and!; try done.
    + intros _. eexists. split; [reflexivity | congruence].
    + intros ? [= <-]. exact Hp.
  - rewrite anim_updateMenuCoordinates_unmounted by (right; done).
    eexists. split; [reflexivity |].
    unfold wf, current, positioned_at; simpl; rewrite Hm; split_and!; done.
Qed.

Lemma anim_onSelect_invariant o st :
  wf st -> positioned st -> wf (onSelect o st) /\ positioned (onSelect o st).
Proof. done. Qed.

(** Every event is handled without an error and keeps the invariant. *)
Lemma anim_step_invariant ev st :
  wf st -> positioned st ->
  exists st', step p ev st = Normal st' /\ wf st' /\ positioned st'.
Proof.
  intros Hwf Hpos. destruct ev as [| | k target | l | i | n | l]; simpl.
  - destruct (anim_onTriggerClick_spec st Hwf Hpos) as (st' & ? & ? & ? & ? & _). eauto.
  - pose proof Hwf as (Hd & Hc & Ho).
    destruct (decide (dropdownStatus st = CLOSED)) as [Hcl | Hop].
    { rewrite (Hc Hcl). eauto. }
    destruct (Ho Hop) as (m & -> & ->).
    destruct (anim_onTransitionEnd_spec st Hwf Hpos) as (st' & ? & ? & ? & ? & _). eauto.
  - destruct (anim_listener_spec target st Hwf Hpos) as (st' & ? & ? & ? & _). eauto.
  - destruct (anim_resizeListener_spec l st Hwf) as (st' & ? & ? & ? & Hcur & _).
    exists st'. split_and!; try done. by eexists.
  - destruct (DropdownMenu (options p) (dropdownStatus st)) as [entries|]; [| eauto].
    destruct (entries !! i) as [entry|]; [| eauto].
    destruct (anim_onSelect_invariant (onClick entry) st Hwf Hpos) as [Hwf' Hpos'].
    destruct (anim_onTriggerClick_spec _ Hwf' Hpos') as (st' & ? & ? & ? & ? & _). eauto.
  - eexists. split; [reflexivity |].
    destruct (focusable p st n); [| done]. done.
  - eexists. split; [reflexivity |]. split; [done |].
    destruct Hpos as [lm Hpos]. by exists lm.
Qed.

Lemma anim_reachable_invariant st : reachable p st -> wf st /\ positioned st.
Proof.
  induction 1 as [l | ev st st' _ [Hwf Hpos] Hstep].
  - split; [| by exists l]. unfold wf. simpl. split_and!; done.
  - destruct (anim_step_invariant ev st Hwf Hpos) as (st'' & Hstep' & ? & ?).
    rewrite Hstep in Hstep'. by simplify_eq.
Qed.

Lemma anim_reachable_run evs st st' :
  reachable p st -> run p evs st = Normal st' -> reachable p st'.
Proof.
  revert st. induction evs as [| ev evs IH]; intros st Hr; simpl.
  - by intros [= <-].
  - destruct (step p ev st) as [st1 |] eqn:Hstep; simpl; [| done].
    apply IH. by eapply reach_step.
Qed.

End WithProps.
End AnimatedFacts.

Module PlainFacts.
Import Plain.

Section WithProps.
Variable p : DropdownProps.

(** A spread adds at most its own property. *)
Lemma plain_spread_and_other name v (obj : gmap string css_value) k :
  name <> k -> spread_and name v obj !! k = obj !! k.
Proof.
  intros Hne. unfold spread_and. destruct v as [n |]; [| done].
  destruct (truthy_num (Some n)); [| done]. by rewrite lookup_insert_ne.
Qed.

(** A spread of a zero adds nothing. *)
Lemma plain_spread_and_zero name n (obj : gmap string css_value) :
  is_zero n = true -> spread_and name (Some n) obj = obj.
Proof. intros Hn. unfold spread_and, truthy_num. by rewrite Hn. Qed.

Lemma plain_setMenuPosition_frame q st :
  menuPosition (setMenuPosition p q st) = q /\
  isOpen (setMenuPosition p q st) = isOpen st /\
  layout (setMenuPosition p q st) = layout st /\
  onSelectCalls (setMenuPosition p q st) = onSelectCalls st.
Proof.
  unfold setMenuPosition, render. simpl.
  destruct (isOpen st) eqn:Ho; [done |].
  by destruct (contains MenuList (activeElement st)).
Qed.

(** The object given to [setMenuPosition] is the spec's placement. *)
Lemma plain_updateMenuCoordinates_mounted st d :
  dropdownRef st = Some d ->
  updateMenuCoordinates p st
  = Normal (setMenuPosition p
              (spec_position (triggerRect (layout st)) (measuredMenuHeight st)
                 (innerHeight (layout st))) st).
Proof.
  intros Hd. unfold updateMenuCoordinates, measuredMenuHeight. rewrite Hd.
  cbn [truthy_ref negb current mbind Completion_bind].
  rewrite spec_position_measured.
  by destruct (innerHeight (layout st)
               <? Rect.bottom (triggerRect (layout st))
                  + or_num ((fun _ => menuHeight (layout st)) <$> menuRef st) 0).
Qed.

Lemma plain_updateMenuCoordinates_unmounted st :
  dropdownRef st = None -> updateMenuCoordinates p st = Normal st.
Proof. intros H. unfold updateMenuCoordinates. by rewrite H. Qed.

(** With the menu mounted the measure is that of the layout's menu height. *)
Lemma plain_measuredMenuHeight_mounted st m r W :
  menuRef st = Some m ->
  spec_position r (measuredMenuHeight st) W = spec_position r (menuHeight (layout st)) W.
Proof.
  intros H. unfold measuredMenuHeight. rewrite H.
  cbn [fmap option_fmap option_map].
  unfold spec_position. by rewrite (or_num_idem (Some (menuHeight (layout st)))).
Qed.

Lemma plain_measuredMenuHeight_unmounted st :
  menuRef st = None -> measuredMenuHeight st = 0.
Proof. intros H. unfold measuredMenuHeight. by rewrite H. Qed.

(** Every change of [isOpen] re-renders into a well-formed, positioned state. *)
Lemma plain_setIsOpen_spec b st :
  wf p st -> positioned st ->
  exists st',
    setIsOpen p b st = Normal st' /\ isOpen st' = b /\
    wf p st' /\ positioned st' /\ layout st' = layout st /\
    onSelectCalls st' = onSelectCalls st /\
    (b = isOpen st -> st' = st) /\
    activeElement st'
    = (if negb b && isOpen st && contains MenuList (activeElement st)
       then Body else activeElement st).
Proof.
  intros (Hd & Hm & Hs & Hf) [lm Hpos]. unfold setIsOpen. case_decide as Heq.
  { subst b. exists st. split_and!; try done; [by exists lm |].
    by destruct (isOpen st). }
  unfold layoutEffect, commitIsOpen, render. simpl. destruct b; simpl.
  - erewrite plain_updateMenuCoordinates_mounted by exact Hd.
    eexists. split; [reflexivity |]. unfold wf, setMenuPosition, render.
    simpl. split_and!; try done.
    + by intros ? [= <-].
    + exists (layout st). intros _. simpl.
      by erewrite plain_measuredMenuHeight_mounted.
  - assert (isOpen st = true) as Ho by (by destruct (isOpen st)).
    rewrite Ho. simpl.
    destruct (contains MenuList (activeElement st)) eqn:Hact;
      (eexists; split; [reflexivity |]); unfold wf; simpl;
      split_and!; try done; try congruence; try (by exists lm); by vm_compute.
Qed.

Lemma plain_onTriggerClick_spec st :
  wf p st -> positioned st ->
  exists st',
    onTriggerClick p st = Normal st' /\ isOpen st' = negb (isOpen st) /\
    wf p st' /\ positioned st' /\ layout st' = layout st /\
    onSelectCalls st' = onSelectCalls st /\
    activeElement st'
    = (if isOpen st && contains MenuList (activeElement st)
       then Body else activeElement st).
Proof.
  intros Hwf Hpos. unfold onTriggerClick.
  destruct (plain_setIsOpen_spec (negb (isOpen st)) st Hwf Hpos)
    as (st' & -> & ? & ? & ? & ? & ? & _ & Hf).
  exists st'. split_and!; try done. rewrite Hf. by destruct (isOpen st).
Qed.

(** The listener closes on a target outside both elements, and only then. *)
Lemma plain_listener_spec target st :
  wf p st -> positioned st ->
  exists st',
    listener p target st = Normal st' /\ wf p st' /\ positioned st' /\
    layout st' = layout st /\ onSelectCalls st' = onSelectCalls st /\
    (contains MenuList target || contains TriggerButton target = true -> st' = st) /\
    (isOpen st = false -> st' = st) /\
    (contains MenuList target = false -> contains TriggerButton target = false ->
     isOpen st' = false).
Proof.
  intros Hwf Hpos. pose proof Hwf as (Hd & Hm & Hs & Hf). unfold listener.
  destruct (menuRef st) as [m|] eqn:Hmenu; simpl in *.
  - rewrite Hd. destruct (contains MenuList target) eqn:Hin; simpl.
    { exists st. by split_and!. }
    destruct (contains TriggerButton target) eqn:Hin'; simpl.
    { exists st. by split_and!. }
    destruct (plain_setIsOpen_spec false st Hwf Hpos)
      as (st' & -> & ? & ? & ? & ? & ? & Hsame & _).
    exists st'. split_and!; try done. intros Hc. apply Hsame. congruence.
  - exists st. by split_and!.
Qed.

(** A resize measures again and stores the placement for the new layout,
    whether the menu is mounted or not. *)
Lemma plain_resizeListener_spec l st :
  wf p st ->
  exists st',
    resizeListener p (set_layout l st) = Normal st' /\
    isOpen st' = isOpen st /\ wf p st' /\ current st' /\ layout st' = l /\
    onSelectCalls st' = onSelectCalls st /\
    activeElement st' = activeElement st /\
    menuPosition st'
    = spec_position (triggerRect l) (measuredMenuHeight (set_layout l st))
        (innerHeight l).
Proof.
  intros (Hd & Hm & Hs & Hf). unfold resizeListener.
  erewrite plain_updateMenuCoordinates_mounted by exact Hd.
  eexists. split; [reflexivity |].
  unfold wf, current, positioned_at, setMenuPosition, render. simpl.
  destruct (isOpen st) eqn:Ho; simpl.
  - destruct (menuRef st) as [m|] eqn:Hmenu; [| done].
    split_and!; try done.
    + by intros ? [= <-].
    + intros _. by erewrite plain_measuredMenuHeight_mounted.
  - (* the menu is not in the document, so it does not hold the focus *)
    destruct (menuRef st) as [m|] eqn:Hmenu; [done |].
    destruct (contains MenuList (activeElement st)) eqn:Hact; [by specialize (Hf eq_refl) |].
    simpl. split_and!; try done; congruence.
Qed.

Lemma plain_onSelect_invariant o st :
  wf p st -> positioned st -> wf p (onSelect o st) /\ positioned (onSelect o st).
Proof. done. Qed.

(** Every event is handled without an error and keeps the invariant. *)
Lemma plain_step_invariant ev st :
  wf p st -> positioned st ->
  exists st', step p ev st = Normal st' /\ wf p st' /\ positioned st'.
Proof.
  intros Hwf Hpos. destruct ev as [| | k target | l | i | n | l]; simpl.
  - destruct (plain_onTriggerClick_spec st Hwf Hpos) as (st' & ? & ? & ? & ? & _). eauto.
  - eauto.
  - destruct (plain_listener_spec target st Hwf Hpos) as (st' & ? & ? & ? & _). eauto.
  - destruct (plain_resizeListener_spec l st Hwf) as (st' & ? & ? & ? & Hcur & _).
    exists st'. split_and!; try done. by eexists.
  - destruct (isOpen st) eqn:Ho; [| eauto].
    destruct (menuEntries (options p) !! i) as [entry|]; [| eauto].
    destruct (plain_onSelect_invariant (onClick entry) st Hwf Hpos) as [Hwf' Hpos'].
    destruct (plain_onTriggerClick_spec _ Hwf' Hpos') as (st' & ? & ? & ? & ? & _). eauto.
  - eexists. split; [reflexivity |].
    destruct (focusable p st n) eqn:Hfoc; [| done]. split; [| done].
    destruct Hwf as (Hd & Hm & Hs & Hf). unfold wf. simpl. split_and!; try done.
    destruct n; try done. simpl in Hfoc. apply andb_prop in Hfoc as [Hmounted _].
    congruence.
  - eexists. split; [reflexivity |]. split; [done |].
    destruct Hpos as [lm Hpos]. by exists lm.
Qed.

Lemma plain_reachable_invariant st : reachable p st -> wf p st /\ positioned st.
Proof.
  induction 1 as [l | ev st st' _ [Hwf Hpos] Hstep].
  - split; [| by exists l]. unfold wf. simpl. split_and!; done.
  - destruct (plain_step_invariant ev st Hwf Hpos) as (st'' & Hstep' & ? & ?).
    rewrite Hstep in Hstep'. by simplify_eq.
Qed.

Lemma plain_reachable_run evs st st' :
  reachable p st -> run p evs st = Normal st' -> reachable p st'.
Proof.
  revert st. induction evs as [| ev evs IH]; intros st Hr; simpl.
  - by intros [= <-].
  - destruct (step p ev st) as [st1 |] eqn:Hstep; simpl; [| done].
    apply IH. by eapply reach_step.
Qed.

End WithProps.
End PlainFacts.

(** ** How the handlers change the stored position *)

Module MoreAnimatedFacts.
Import Animated AnimatedView.

Section WithProps.
Variable p : DropdownProps.

Lemma anim_update_placed st d m :
  dropdownRef st = Some d -> menuRef st = Some m ->
  updateMenuCoordinates st = Normal (set_menuRef (Some (placed (layout st) m)) st).
Proof.
  intros Hd Hm. unfold updateMenuCoordinates, placed. rewrite Hd, Hm.
  by cbn [truthy_ref negb orb current mbind Completion_bind fmap option_fmap
           option_map].
Qed.

(** A later placement overwrites an earlier one entirely. *)
Lemma anim_placed_absorb l1 l2 m : placed l2 (placed l1 m) = placed l2 m.
Proof.
  unfold placed, setProperty. simpl. f_equal. apply map_eq. intros k.
  destruct (innerHeight l1 <? _), (innerHeight l2 <? _);
    destruct (decide (k = "width")) as [-> |]; [by simplify_map_eq | | by simplify_map_eq | | by simplify_map_eq | | by simplify_map_eq | ];
    (destruct (decide (k = "left")) as [-> |]; [by simplify_map_eq |]);
    (destruct (decide (k = "bottom")) as [-> |]; [by simplify_map_eq |]);
    (destruct (decide (k = "top")) as [-> |]; [by simplify_map_eq |]);
    by simplify_map_eq.
Qed.

(** The style of a placed element does not depend on the listener it has. *)
Lemma anim_placed_style l m m' : style m = style m' -> style (placed l m) = style (placed l m').
Proof. unfold placed, setProperty. simpl. by intros ->. Qed.


(** The style of a new element once placed. *)
Lemma anim_placed_new l :
  style (placed l {| style := ∅; animationend := None |}) = declarations l.
Proof.
  unfold placed, declarations, setProperty. simpl.
  destruct (innerHeight l <? _); simpl.
  - by rewrite delete_empty.
  - by rewrite delete_insert_ne, delete_empty.
Qed.

Opaque placed.

(** No handler dereferences an empty ref, whatever the state. *)
Lemma anim_layoutEffect_total st : exists st', layoutEffect st = Normal st'.
Proof.
  unfold layoutEffect. destruct (includes _ _); [| eauto].
  destruct (AnimatedFacts.anim_updateMenuCoordinates_total st) as (st' & ? & _).
  eauto.
Qed.

Lemma anim_setDropdownStatus_total s st :
  exists st', setDropdownStatus p s st = Normal st'.
Proof.
  unfold setDropdownStatus. case_decide; [eauto |].
  destruct (anim_layoutEffect_total (commit p s (set_dropdownStatus s st)))
    as (st' & ->). simpl. eauto.
Qed.

Lemma anim_onTriggerClick_total st : exists st', onTriggerClick p st = Normal st'.
Proof.
  unfold onTriggerClick, openDropdown, closeDropdown.
  destruct (includes _ _); [apply anim_setDropdownStatus_total |].
  destruct (includes _ _); [apply anim_setDropdownStatus_total | eauto].
Qed.

Lemma anim_step_total ev st : exists st', step p ev st = Normal st'.
Proof.
  destruct ev as [| | k target | l | i | n | l]; simpl.
  - apply anim_onTriggerClick_total.
  - destruct (menuRef st) as [m |]; [| eauto].
    destruct (animationend m) as [c |]; [| eauto].
    unfold onTransitionEnd. destruct c; simpl; [eauto | eauto | |].
    + destruct (anim_setDropdownStatus_total CLOSED st) as (st1 & ->). simpl. eauto.
    + apply anim_setDropdownStatus_total.
  - unfold listener. destruct (menuRef st) as [m |]; simpl; [| eauto].
    destruct (contains MenuList target); [eauto |].
    destruct (dropdownRef st) as [d |].
    + destruct (contains d target); [eauto | apply anim_setDropdownStatus_total].
    + apply anim_setDropdownStatus_total.
  - destruct (AnimatedFacts.anim_updateMenuCoordinates_total (set_layout l st))
      as (st' & ? & _). eauto.
  - destruct (DropdownMenu _ _) as [entries |]; [| eauto].
    destruct (entries !! i); [apply anim_onTriggerClick_total | eauto].
  - eauto.
  - eauto.
Qed.

(** How a change of status leaves the style of the menu: as it was, or
    placed anew for the layout, which it does not change. *)
Lemma anim_setDropdownStatus_style s st st' :
  wf st -> (s = CLOSING -> dropdownStatus st <> CLOSED) ->
  setDropdownStatus p s st = Normal st' ->
  layout st' = layout st /\
  forall m', menuRef st' = Some m' ->
    (exists m, menuRef st = Some m /\ style m' = style m) \/
    (exists m0, style m' = style (placed (layout st') m0) /\
                (menuRef st = Some m0 \/ style m0 = ∅)).
Proof.
  intros (Hd & Hc & Ho) Hs. unfold setDropdownStatus.
  case_decide as Heq.
  { intros [= <-]. split; [done |]. intros m' Hm'. left. by exists m'. }
  unfold commit, DropdownMenu. case_decide as Hcl.
  - subst s. cbn [activeElement set_dropdownStatus].
    destruct (contains MenuList (activeElement st)); intros [= <-];
      (split; [done |]); by intros m'.
  - destruct (menuRef (set_dropdownStatus s st)) as [m|] eqn:Hm; simpl in Hm.
    + unfold layoutEffect.
      destruct (includes OPEN_DROPDOWN_STATUSES
                  (dropdownStatus (set_dropdownStatus s st))) eqn:Hin.
      * rewrite (anim_update_placed (set_dropdownStatus s st) TriggerButton m Hd Hm).
        intros [= <-]. split; [done |]. intros m' [= <-]. right. exists m.
        split; [done | by left].
      * intros [= <-]. unfold animationEffect. simpl. rewrite Hm.
        split; [done |]. intros m' [= <-]. left. by exists m.
    + assert (dropdownStatus st = CLOSED) as Hst.
      { destruct (decide (dropdownStatus st = CLOSED)) as [|Hne]; [done |].
        destruct (Ho Hne) as (m & Hm' & _). congruence. }
      assert (includes OPEN_DROPDOWN_STATUSES s = true) as Hin.
      { destruct s; try done. by destruct Hs. }
      unfold layoutEffect. simpl. rewrite Hin.
      erewrite anim_update_placed; [| exact Hd | reflexivity].
      intros [= <-]. split; [done |]. intros m' [= <-]. right.
      eexists. split; [reflexivity | by right].
Qed.

Lemma anim_onTriggerClick_style st st' :
  wf st -> onTriggerClick p st = Normal st' ->
  layout st' = layout st /\
  forall m', menuRef st' = Some m' ->
    (exists m, menuRef st = Some m /\ style m' = style m) \/
    (exists m0, style m' = style (placed (layout st') m0) /\
                (menuRef st = Some m0 \/ style m0 = ∅)).
Proof.
  intros Hwf. unfold onTriggerClick, openDropdown, closeDropdown.
  destruct (dropdownStatus st) eqn:Hs; simpl;
    apply anim_setDropdownStatus_style; try done; congruence.
Qed.

(** How an event leaves the style of the menu: as it was, with the layout
    unchanged unless the event is a change of layout, or placed anew for the
    layout of the new state. *)
Lemma anim_step_style ev st st' :
  wf st -> step p ev st = Normal st' ->
  forall m', menuRef st' = Some m' ->
    (exists m, menuRef st = Some m /\ style m' = style m /\
               ((exists l, ev = LayoutChange l) \/ layout st' = layout st)) \/
    (exists m0, style m' = style (placed (layout st') m0) /\
                (menuRef st = Some m0 \/ style m0 = ∅)).
Proof.
  intros Hwf. pose proof Hwf as (Hd & Hc & Ho).
  assert (forall st1 : State,
            (layout st1 = layout st /\
             forall m', menuRef st1 = Some m' ->
               (exists m, menuRef st = Some m /\ style m' = style m) \/
               (exists m0, style m' = style (placed (layout st1) m0) /\
                           (menuRef st = Some m0 \/ style m0 = ∅))) ->
            forall m', menuRef st1 = Some m' ->
              (exists m, menuRef st = Some m /\ style m' = style m /\
                         ((exists l, ev = LayoutChange l) \/ layout st1 = layout st)) \/
              (exists m0, style m' = style (placed (layout st1) m0) /\
                          (menuRef st = Some m0 \/ style m0 = ∅))) as Hshape.
  { intros st1 [Hl Hst1] m' Hm'.
    destruct (Hst1 m' Hm') as [(m & ? & ?) | ?]; [left | by right].
    exists m. split_and!; try done. by right. }
  assert (forall m', menuRef st = Some m' ->
            (exists m, menuRef st = Some m /\ style m' = style m /\
                       ((exists l, ev = LayoutChange l) \/ layout st = layout st)) \/
            (exists m0, style m' = style (placed (layout st) m0) /\
                        (menuRef st = Some m0 \/ style m0 = ∅))) as Hsame.
  { intros m' Hm'. left. exists m'. split_and!; try done. by right. }
  destruct ev as [| | k target | l | i | n | l]; simpl; intros Hstep.
  - by apply Hshape, anim_onTriggerClick_style.
  - destruct (decide (dropdownStatus st = CLOSED)) as [Hcl | Hop].
    { rewrite (Hc Hcl) in Hstep. injection Hstep as <-. exact Hsame. }
    destruct (Ho Hop) as (m & Hm & Ha). rewrite Hm, Ha in Hstep.
    unfold onTransitionEnd in Hstep.
    destruct (dropdownStatus st) eqn:Hs; simpl in Hstep; try done.
    + injection Hstep as <-. exact Hsame.
    + destruct (setDropdownStatus p CLOSED st) as [st1 |] eqn:H1;
        simpl in Hstep; [| done].
      injection Hstep as <-. apply Hshape.
      eapply anim_setDropdownStatus_style; [done | | exact H1]. done.
    + apply Hshape.
      eapply anim_setDropdownStatus_style; [done | | exact Hstep]. done.
  - unfold listener in Hstep.
    destruct (decide (dropdownStatus st = CLOSED)) as [Hcl | Hop].
    { rewrite (Hc Hcl) in Hstep. injection Hstep as <-. exact Hsame. }
    destruct (Ho Hop) as (m & Hm & _). rewrite Hm, Hd in Hstep. simpl in Hstep.
    destruct (contains MenuList target); [injection Hstep as <-; exact Hsame |].
    destruct (contains TriggerButton target);
      [injection Hstep as <-; exact Hsame |].
    apply Hshape.
    eapply anim_setDropdownStatus_style; [done | | exact Hstep]. congruence.
  - unfold resizeListener in Hstep. destruct (menuRef st) as [m |] eqn:Hm.
    + erewrite anim_update_placed in Hstep; [| exact Hd | exact Hm].
      injection Hstep as <-. intros m' [= <-]. right. exists m.
      split; [done | by left].
    + rewrite AnimatedFacts.anim_updateMenuCoordinates_unmounted in Hstep
        by (right; done).
      injection Hstep as <-. intros m'. simpl. by rewrite Hm.
  - destruct (DropdownMenu _ _) as [entries |];
      [| injection Hstep as <-; exact Hsame].
    destruct (entries !! i) as [e |]; [| injection Hstep as <-; exact Hsame].
    apply Hshape.
    by destruct (anim_onTriggerClick_style (onSelect (onClick e) st) st' Hwf Hstep).
  - injection Hstep as <-. destruct (focusable p st n); exact Hsame.
  - injection Hstep as <-. intros m' Hm'. left. exists m'. split_and!; try done.
    left. by exists l.
Qed.

(** The style of the menu is, in every reachable state, the one that the
    latest recompute wrote. *)
Lemma anim_reachable_styled st : reachable p st -> styled st.
Proof.
  induction 1 as [l | ev st st' Hr [lm IH] Hstep]; [exists l; by intros m |].
  destruct (AnimatedFacts.anim_reachable_invariant p st Hr) as [Hwf _].
  destruct (menuRef st') as [m' |] eqn:Hm'; [| exists lm; intros m; congruence].
  destruct (anim_step_style ev st st' Hwf Hstep m' Hm')
    as [(m & Hm & Hsty & _) | (m0 & Hsty & [Hm0 | Hm0])].
  - exists lm. intros m1 Hm1. assert (m1 = m') as -> by congruence. rewrite Hsty. by apply IH.
  - exists (layout st'). intros m1 Hm1. assert (m1 = m') as -> by congruence. rewrite Hsty.
    rewrite (anim_placed_style _ _ _ (IH m0 Hm0)). by rewrite anim_placed_absorb.
  - exists (layout st'). intros m1 Hm1. assert (m1 = m') as -> by congruence. rewrite Hsty.
    by apply anim_placed_style.
Qed.

(** Apart from a change of layout, no event ends the style being the one
    written for the current layout. *)
Lemma anim_step_styled_current ev st st' :
  wf st -> styled_at (layout st) st -> is_layoutChange ev = false ->
  step p ev st = Normal st' -> styled_at (layout st') st'.
Proof.
  intros Hwf Hsty Hev Hstep m' Hm'.
  destruct (anim_step_style ev st st' Hwf Hstep m' Hm')
    as [(m & Hm & Hs & [[l ->] | Hl]) | (m0 & Hs & [Hm0 | Hm0])].
  - done.
  - rewrite Hs, Hl. by apply Hsty.
  - rewrite Hs. rewrite (anim_placed_style _ _ _ (Hsty m0 Hm0)).
    by rewrite anim_placed_absorb.
  - rewrite Hs. by apply anim_placed_style.
Qed.

Lemma anim_run_styled_current evs st st' :
  reachable p st -> styled_at (layout st) st ->
  forallb (fun ev => negb (is_layoutChange ev)) evs = true ->
  run p evs st = Normal st' -> styled_at (layout st') st'.
Proof.
  revert st. induction evs as [| ev evs IH]; intros st Hr Hsty Hevs; simpl.
  - by intros [= <-].
  - simpl in Hevs. apply andb_prop in Hevs as [Hev Hevs].
    apply negb_true_iff in Hev.
    destruct (step p ev st) as [st1 |] eqn:Hstep; simpl; [| done].
    apply IH; [by eapply reach_step | | done].
    eapply anim_step_styled_current; [| exact Hsty | exact Hev | exact Hstep].
    by destruct (AnimatedFacts.anim_reachable_invariant p st Hr).
Qed.

(** A resize leaves the style written for the new layout. *)
Lemma anim_resize_styled l st st' :
  reachable p st -> step p (Resize l) st = Normal st' -> styled_at l st'.
Proof.
  intros Hr Hstep. destruct (anim_reachable_styled st Hr) as [lm Hsty].
  destruct (AnimatedFacts.anim_reachable_invariant p st Hr) as [(Hd & _) _].
  revert Hstep. simpl. unfold resizeListener.
  destruct (menuRef st) as [m |] eqn:Hm.
  - erewrite anim_update_placed; [| exact Hd | exact Hm].
    intros [= <-]. intros m' [= <-]. simpl.
    rewrite (anim_placed_style _ _ _ (Hsty m Hm)). by rewrite anim_placed_absorb.
  - rewrite AnimatedFacts.anim_updateMenuCoordinates_unmounted by (right; done).
    intros [= <-]. intros m'. simpl. by rewrite Hm.
Qed.



Transparent placed.

End WithProps.
End MoreAnimatedFacts.

Module MorePlainFacts.
Import Plain PlainView.

Section WithProps.
Variable p : DropdownProps.

Lemma plain_updateMenuCoordinates_total st :
  exists st', updateMenuCoordinates p st = Normal st'.
Proof.
  destruct (dropdownRef st) as [d |] eqn:Hd.
  - rewrite (PlainFacts.plain_updateMenuCoordinates_mounted p st d Hd). eauto.
  - rewrite (PlainFacts.plain_updateMenuCoordinates_unmounted p st Hd). eauto.
Qed.

Lemma plain_setIsOpen_total b st : exists st', setIsOpen p b st = Normal st'.
Proof.
  unfold setIsOpen, layoutEffect. case_decide; [eauto |].
  destruct (isOpen (commitIsOpen p b st));
    [apply plain_updateMenuCoordinates_total | eauto].
Qed.

Lemma plain_step_total ev st : exists st', step p ev st = Normal st'.
Proof.
  destruct ev as [| | k target | l | i | n | l]; simpl.
  - apply plain_setIsOpen_total.
  - eauto.
  - unfold listener. destruct (menuRef st) as [m |]; simpl; [| eauto].
    destruct (contains MenuList target); [eauto |].
    destruct (dropdownRef st) as [d |].
    + destruct (contains d target); [eauto | apply plain_setIsOpen_total].
    + apply plain_setIsOpen_total.
  - apply plain_updateMenuCoordinates_total.
  - destruct (isOpen st); [| eauto].
    destruct (_ !! i); [apply plain_setIsOpen_total | eauto].
  - eauto.
  - eauto.
Qed.

(** Of two renders of a position in a row, the second decides. *)
Lemma plain_setMenuPosition_twice q q' st :
  setMenuPosition p q (setMenuPosition p q' st) = setMenuPosition p q st.
Proof.
  unfold setMenuPosition, render. simpl.
  destruct (isOpen st) eqn:Ho; simpl; [by rewrite Ho |].
  destruct (contains MenuList (activeElement st)) eqn:Ha; simpl; rewrite Ho; simpl;
    [done | by rewrite Ha].
Qed.

Lemma plain_measuredMenuHeight_rendered q st :
  truthy_ref (menuRef st) = isOpen st ->
  measuredMenuHeight (setMenuPosition p q st) = measuredMenuHeight st.
Proof.
  intros Hm. unfold measuredMenuHeight, setMenuPosition, render. simpl.
  destruct (isOpen st); destruct (menuRef st); try done;
    by destruct (contains MenuList (activeElement st)).
Qed.

Lemma plain_setMenuPosition_refs q st :
  dropdownRef (setMenuPosition p q st) = dropdownRef st /\
  truthy_ref (menuRef (setMenuPosition p q st)) = isOpen st.
Proof.
  unfold setMenuPosition, render. simpl.
  destruct (isOpen st); [done |].
  by destruct (contains MenuList (activeElement st)).
Qed.




End WithProps.
End MorePlainFacts.

(** ** The claims *)

Section Claims.
Import AnimatedFacts PlainFacts MoreAnimatedFacts MorePlainFacts.

(** C1. A position recompute with both elements mounted, in the arithmetic of
    the code (IEEE doubles), with trigger rectangle [r], menu height [h] as
    the code measures it ([... || 0]) and window height [W], neither
    [r.bottom + h] nor [W] being [NaN]: it anchors the menu below the trigger
    ([top = r.bottom], [bottom] unset) when [r.bottom + h <= W], and above it
    ([bottom = W - r.top], [top] unset) otherwise; in both branches
    [left = r.x] and [width = r.width]. The four-state variant holds the
    position in the menu's inline style, the two-state variant in its
    [menuPosition] state. The measured height is numerically the menu's
    height, whatever number this is. *)
Theorem C1_recompute_placement :
  (forall (st : Animated.State) d m,
     Animated.dropdownRef st = Some d -> Animated.menuRef st = Some m ->
     forall r h W,
       r = triggerRect (Animated.layout st) ->
       h = or_num (Some (menuHeight (Animated.layout st))) 0 ->
       W = innerHeight (Animated.layout st) ->
       is_nan (Rect.bottom r + h) = false -> is_nan W = false ->
       exists m',
         Animated.updateMenuCoordinates st
         = Normal (Animated.set_menuRef (Some m') st) /\
         ((Rect.bottom r + h <=? W) = true ->
          Animated.style m' !! "top" = Some (Px (Rect.bottom r)) /\
          Animated.style m' !! "bottom" = None) /\
         ((Rect.bottom r + h <=? W) = false ->
          Animated.style m' !! "bottom" = Some (Px (W - Rect.top r)) /\
          Animated.style m' !! "top" = None) /\
         Animated.style m' !! "left" = Some (Px (Rect.x r)) /\
         Animated.style m' !! "width" = Some (Px (Rect.width r))) /\
  (forall p (st : Plain.State) d m,
     Plain.dropdownRef st = Some d -> Plain.menuRef st = Some m ->
     forall r h W,
       r = triggerRect (Plain.layout st) ->
       h = or_num (Some (menuHeight (Plain.layout st))) 0 ->
       W = innerHeight (Plain.layout st) ->
       is_nan (Rect.bottom r + h) = false -> is_nan W = false ->
       exists st',
         Plain.updateMenuCoordinates p st = Normal st' /\
         ((Rect.bottom r + h <=? W) = true ->
          Pos.top (Plain.menuPosition st') = Some (Rect.bottom r) /\
          Pos.bottom (Plain.menuPosition st') = None) /\
         ((Rect.bottom r + h <=? W) = false ->
          Pos.bottom (Plain.menuPosition st') = Some (W - Rect.top r) /\
          Pos.top (Plain.menuPosition st') = None) /\
         Pos.left (Plain.menuPosition st') = Some (Rect.x r) /\
         Pos.width (Plain.menuPosition st') = Some (Rect.width r)) /\
  (forall height,
     is_nan height = false -> (height =? or_num (Some height) 0) = true).
Proof.
  split_and!.
  - intros st d m Hd Hm r h W -> -> -> Hsum HW.
    destruct (anim_updateMenuCoordinates_mounted st d m Hd Hm) as (m' & -> & _ & Hp).
    exists m'. split; [done |].
    unfold Animated.inlinePosition, Animated.pxPosition, spec_position in Hp.
    rewrite (ltb_negb_leb _ _ Hsum HW) in Hp.
    destruct (_ <=? _); simpl in Hp; injection Hp as -> -> -> ->;
      split_and!; done.
  - intros p st d m Hd Hm r h W -> -> -> Hsum HW.
    rewrite (plain_updateMenuCoordinates_mounted p st d Hd).
    rewrite (plain_measuredMenuHeight_mounted st m _ _ Hm).
    eexists. split; [reflexivity |].
    rewrite (proj1 (plain_setMenuPosition_frame p _ st)). unfold spec_position.
    rewrite (ltb_negb_leb _ _ Hsum HW).
    destruct (_ <=? _); simpl; split_and!; done.
  - intros height Hnan. unfold or_num, truthy_num. rewrite Hnan, orb_false_r.
    destruct (is_zero height) eqn:Hz; simpl; [exact Hz |].
    unfold is_nan in Hnan. by destruct (height =? height).
Qed.

Lemma C1_recompute_placement_witness :
  (exists m',
     Animated.updateMenuCoordinates (Animated.after sample_props [TriggerClick] layout_below)
     = Normal (Animated.set_menuRef (Some m')
                 (Animated.after sample_props [TriggerClick] layout_below)) /\
     Animated.style m' !! "top" = Some (Px 530) /\
     Animated.style m' !! "bottom" = None) /\
  (exists st',
     Plain.updateMenuCoordinates sample_props
       (Plain.after sample_props [TriggerClick] layout_above) = Normal st' /\
     Pos.bottom (Plain.menuPosition st') = Some 20 /\
     Pos.top (Plain.menuPosition st') = None) /\
  (exists m',
     Animated.updateMenuCoordinates (Animated.after sample_props [TriggerClick] layout_huge)
     = Normal (Animated.set_menuRef (Some m')
                 (Animated.after sample_props [TriggerClick] layout_huge)) /\
     Animated.style m' !! "top" = Some (Px 9007199254740992) /\
     Animated.style m' !! "bottom" = None) /\
  (exists st',
     Plain.updateMenuCoordinates sample_props
       (Plain.after sample_props [TriggerClick] layout_fraction) = Normal st' /\
     Pos.top (Plain.menuPosition st') = Some 530.5 /\
     Pos.bottom (Plain.menuPosition st') = None).
Proof.
  split_and!.
  - edestruct (proj1 C1_recompute_placement
                 (Animated.after sample_props [TriggerClick] layout_below)
                 TriggerButton)
      as (m' & Hrun & Hbelow & _);
      [vm_compute; reflexivity | vm_compute; reflexivity | reflexivity..
      | vm_compute; reflexivity | vm_compute; reflexivity |].
    exists m'. split; [exact Hrun |]. apply Hbelow. vm_compute; reflexivity.
  - edestruct (proj1 (proj2 C1_recompute_placement) sample_props
                 (Plain.after sample_props [TriggerClick] layout_above)
                 TriggerButton)
      as (st' & Hrun & _ & Habove & _);
      [vm_compute; reflexivity | vm_compute; reflexivity | reflexivity..
      | vm_compute; reflexivity | vm_compute; reflexivity |].
    exists st'. split; [exact Hrun |]. apply Habove. vm_compute; reflexivity.
  - edestruct (proj1 C1_recompute_placement
                 (Animated.after sample_props [TriggerClick] layout_huge)
                 TriggerButton)
      as (m' & Hrun & Hbelow & _);
      [vm_compute; reflexivity | vm_compute; reflexivity | reflexivity..
      | vm_compute; reflexivity | vm_compute; reflexivity |].
    exists m'. split; [exact Hrun |]. apply Hbelow. vm_compute; reflexivity.
  - edestruct (proj1 (proj2 C1_recompute_placement) sample_props
                 (Plain.after sample_props [TriggerClick] layout_fraction)
                 TriggerButton)
      as (st' & Hrun & Hbelow & _);
      [vm_compute; reflexivity | vm_compute; reflexivity | reflexivity..
      | vm_compute; reflexivity | vm_compute; reflexivity |].
    exists st'. split; [exact Hrun |]. apply Hbelow. vm_compute; reflexivity.
Defined.




(** C3, as stated, fails: the relation of the code is not exactly the four
    transitions of the diagram. A click on the trigger while the menu is
    still [OPENING] leads to [CLOSING], which the diagram does not have. *)
Lemma C3_counterexample :
  Animated.transition sample_props Animated.OPENING TriggerClick Animated.CLOSING /\
  ~ Animated.spec_transition Animated.OPENING TriggerClick Animated.CLOSING.
Proof.
  split.
  - exists (Animated.after sample_props [TriggerClick] layout_below),
           (Animated.after sample_props [TriggerClick; TriggerClick] layout_below).
    split_and!; try reflexivity.
    apply (anim_reachable_run sample_props [TriggerClick]
             (Animated.mount layout_below));
      [apply Animated.reach_mount | reflexivity].
  - intros H. inversion H.
Qed.

(** C3, amended. In every reachable state of the four-state variant a click on
    the trigger leads from [CLOSED] or [CLOSING] to [OPENING] and from [OPEN]
    or [OPENING] to [CLOSING]; an [animationend] event leads from [OPENING] to
    [OPEN] and from [CLOSING] to [CLOSED] and changes nothing in [OPEN] and
    [CLOSED]. So every transition of the diagram is one of the code, and from a
    [CLOSED] state click, animation end, click, animation end comes back to
    [CLOSED]. *)
Theorem C3_status_transitions :
  forall p (st : Animated.State),
    Animated.reachable p st ->
    (exists st',
       Animated.step p TriggerClick st = Normal st' /\
       Animated.dropdownStatus st'
       = match Animated.dropdownStatus st with
         | Animated.CLOSED | Animated.CLOSING => Animated.OPENING
         | Animated.OPEN | Animated.OPENING => Animated.CLOSING
         end) /\
    (exists st',
       Animated.step p AnimationEnd st = Normal st' /\
       Animated.dropdownStatus st'
       = match Animated.dropdownStatus st with
         | Animated.OPENING => Animated.OPEN
         | Animated.CLOSING => Animated.CLOSED
         | Animated.OPEN => Animated.OPEN
         | Animated.CLOSED => Animated.CLOSED
         end) /\
    (forall s ev s',
       Animated.spec_transition s ev s' -> Animated.dropdownStatus st = s ->
       exists st', Animated.step p ev st = Normal st' /\
                   Animated.dropdownStatus st' = s') /\
    (Animated.dropdownStatus st = Animated.CLOSED ->
     exists st',
       Animated.run p [TriggerClick; AnimationEnd; TriggerClick; AnimationEnd] st
       = Normal st' /\
       Animated.dropdownStatus st' = Animated.CLOSED).
Proof.
  assert (forall p st, Animated.wf st -> Animated.positioned st ->
            exists st', Animated.step p TriggerClick st = Normal st' /\
              Animated.dropdownStatus st'
              = Animated.toggled (Animated.dropdownStatus st) /\
              Animated.wf st' /\ Animated.positioned st') as Hclick.
  { intros p st Hwf Hpos.
    destruct (anim_onTriggerClick_spec p st Hwf Hpos) as (st' & ? & ? & ? & ? & _).
    eauto. }
  assert (forall p st, Animated.wf st -> Animated.positioned st ->
            exists st', Animated.step p AnimationEnd st = Normal st' /\
              Animated.dropdownStatus st'
              = Animated.settled (Animated.dropdownStatus st) /\
              Animated.wf st' /\ Animated.positioned st') as Hend.
  { intros p st Hwf Hpos. simpl. pose proof Hwf as (_ & Hc & Ho).
    destruct (decide (Animated.dropdownStatus st = Animated.CLOSED)) as [Hcl | Hop].
    { rewrite (Hc Hcl). exists st. by rewrite Hcl. }
    destruct (Ho Hop) as (m & -> & ->).
    destruct (anim_onTransitionEnd_spec p st Hwf Hpos) as (st' & ? & ? & ? & ? & _).
    eauto. }
  intros p st Hr. destruct (anim_reachable_invariant p st Hr) as [Hwf Hpos].
  split_and!.
  - destruct (Hclick p st Hwf Hpos) as (st' & ? & Hs & _). exists st'.
    split; [done |]. rewrite Hs. by destruct (Animated.dropdownStatus st).
  - destruct (Hend p st Hwf Hpos) as (st' & ? & Hs & _). exists st'.
    split; [done |]. rewrite Hs. by destruct (Animated.dropdownStatus st).
  - intros s ev s' Hspec Hst. destruct Hspec.
    + destruct (Hclick p st Hwf Hpos) as (st' & ? & Hs & _). exists st'.
      by rewrite Hs, Hst.
    + destruct (Hend p st Hwf Hpos) as (st' & ? & Hs & _). exists st'.
      by rewrite Hs, Hst.
    + destruct (Hclick p st Hwf Hpos) as (st' & ? & Hs & _). exists st'.
      by rewrite Hs, Hst.
    + destruct (Hend p st Hwf Hpos) as (st' & ? & Hs & _). exists st'.
      by rewrite Hs, Hst.
  - intros Hst. cbn [Animated.run].
    destruct (Hclick p st Hwf Hpos) as (st1 & -> & Hs1 & Hwf1 & Hpos1).
    cbn [mbind Completion_bind].
    destruct (Hend p st1 Hwf1 Hpos1) as (st2 & -> & Hs2 & Hwf2 & Hpos2).
    cbn [mbind Completion_bind].
    destruct (Hclick p st2 Hwf2 Hpos2) as (st3 & -> & Hs3 & Hwf3 & Hpos3).
    cbn [mbind Completion_bind].
    destruct (Hend p st3 Hwf3 Hpos3) as (st4 & -> & Hs4 & _).
    cbn [mbind Completion_bind].
    exists st4. split; [done |]. by rewrite Hs4, Hs3, Hs2, Hs1, Hst.
Qed.

Lemma C3_status_transitions_witness :
  exists st',
    Animated.run sample_props [TriggerClick; AnimationEnd; TriggerClick; AnimationEnd]
      (Animated.mount layout_below) = Normal st' /\
    Animated.dropdownStatus st' = Animated.CLOSED.
Proof.
  apply (C3_status_transitions sample_props (Animated.mount layout_below)).
  - apply Animated.reach_mount.
  - reflexivity.
Defined.

(** C4. While the menu is open, a [mousedown] or [touchstart] whose target is
    contained in neither the trigger nor the menu makes the dropdown leave the
    open state (status [CLOSING]; [isOpen] false); one whose target is
    contained in the trigger or in the menu leaves the whole state as it
    is. *)
Theorem C4_pointer_down :
  (forall p (st : Animated.State) k target,
     Animated.reachable p st ->
     Animated.includes Animated.OPEN_DROPDOWN_STATUSES (Animated.dropdownStatus st)
     = true ->
     (contains TriggerButton target = false -> contains MenuList target = false ->
      exists st',
        Animated.step p (PointerDown k target) st = Normal st' /\
        Animated.dropdownStatus st' = Animated.CLOSING /\
        Animated.includes Animated.OPEN_DROPDOWN_STATUSES
          (Animated.dropdownStatus st') = false) /\
     (contains TriggerButton target = true \/ contains MenuList target = true ->
      Animated.step p (PointerDown k target) st = Normal st)) /\
  (forall p (st : Plain.State) k target,
     Plain.reachable p st -> Plain.isOpen st = true ->
     (contains TriggerButton target = false -> contains MenuList target = false ->
      exists st',
        Plain.step p (PointerDown k target) st = Normal st' /\
        Plain.isOpen st' = false) /\
     (contains TriggerButton target = true \/ contains MenuList target = true ->
      Plain.step p (PointerDown k target) st = Normal st)).
Proof.
  split.
  - intros p st k target Hr Hopen.
    destruct (anim_reachable_invariant p st Hr) as [Hwf Hpos].
    destruct (anim_listener_spec p target st Hwf Hpos)
      as (st' & Hstep & _ & _ & _ & _ & Hin & _ & Hout).
    simpl. rewrite Hstep. split.
    + intros Ht Hm. exists st'. split; [done |].
      rewrite Hout; [done | done | done |]. intros Hcl. by rewrite Hcl in Hopen.
    + intros Hc. rewrite Hin; [done |]. destruct Hc as [-> | ->]; [| done].
      apply orb_true_r.
  - intros p st k target Hr Hopen.
    destruct (plain_reachable_invariant p st Hr) as [Hwf Hpos].
    destruct (plain_listener_spec p target st Hwf Hpos)
      as (st' & Hstep & _ & _ & _ & _ & Hin & _ & Hout).
    simpl. rewrite Hstep. split.
    + intros Ht Hm. exists st'. split; [done |]. by apply Hout.
    + intros Hc. rewrite Hin; [done |]. destruct Hc as [-> | ->]; [| done].
      apply orb_true_r.
Qed.

Lemma C4_pointer_down_witness :
  (exists st',
     Animated.step sample_props (PointerDown mousedown (Other 0))
       (Animated.after sample_props [TriggerClick; AnimationEnd] layout_below)
     = Normal st' /\
     Animated.dropdownStatus st' = Animated.CLOSING /\
     Animated.includes Animated.OPEN_DROPDOWN_STATUSES (Animated.dropdownStatus st')
     = false) /\
  Plain.step sample_props (PointerDown touchstart (MenuButton 1))
    (Plain.after sample_props [TriggerClick] layout_below)
  = Normal (Plain.after sample_props [TriggerClick] layout_below).
Proof.
  split.
  - apply (proj1 C4_pointer_down sample_props
             (Animated.after sample_props [TriggerClick; AnimationEnd] layout_below)
             mousedown (Other 0)).
    + apply (anim_reachable_run sample_props [TriggerClick; AnimationEnd]
               (Animated.mount layout_below));
        [apply Animated.reach_mount | reflexivity].
    + reflexivity.
    + reflexivity.
    + reflexivity.
  - apply (proj2 C4_pointer_down sample_props
             (Plain.after sample_props [TriggerClick] layout_below)
             touchstart (MenuButton 1)).
    + apply (plain_reachable_run sample_props [TriggerClick]
               (Plain.mount layout_below));
        [apply Plain.reach_mount | reflexivity].
    + reflexivity.
    + right. reflexivity.
Defined.

(** C5, as stated, fails for an option whose label is the empty string: the
    option is found, yet the trigger shows the placeholder, not the label. *)
Lemma C5_counterexample :
  selectedOption [ {| id := "1"; label := EmptyString |} ] (Some "1")
  = Some {| id := "1"; label := EmptyString |} /\
  triggerText [ {| id := "1"; label := EmptyString |} ] (Some "1") = "Select ..." /\
  triggerText [ {| id := "1"; label := EmptyString |} ] (Some "1")
  <> label {| id := "1"; label := EmptyString |}.
Proof. split_and!; done. Qed.

(** C5, amended. If no option of the list has the id [selectedOptionId], the
    trigger shows the placeholder ["Select ..."]; if some option has it, the
    trigger shows the label of the first such option when that label is not
    empty, and the placeholder when it is. *)
Theorem C5_trigger_text :
  forall (opts : list Option) (sel : option string),
    ((forall o, o ∈ opts -> Some (id o) <> sel) ->
     triggerText opts sel = "Select ...") /\
    (forall before o rest,
       opts = before ++ o :: rest ->
       (forall o', o' ∈ before -> Some (id o') <> sel) ->
       Some (id o) = sel ->
       selectedOption opts sel = Some o /\
       triggerText opts sel
       = if decide (label o = EmptyString) then "Select ..." else label o).
Proof.
  intros opts sel. split.
  - intros Hnone. unfold triggerText, selectedOption.
    replace (find _ opts) with (@None Option); [done |].
    symmetry. induction opts as [| o opts IH]; [done |]. simpl.
    destruct sel as [s |].
    + destruct (String.eqb_spec (id o) s) as [Heq | _].
      * exfalso. apply (Hnone o); [left | by rewrite Heq].
      * apply IH. intros o' Ho'. apply Hnone. by right.
    + apply IH. intros o' Ho'. apply Hnone. by right.
  - intros before o rest -> Hbefore Hsel.
    assert (selectedOption (before ++ o :: rest) sel = Some o) as Hfind.
    { unfold selectedOption. subst sel.
      induction before as [| o' before IH]; simpl.
      - by rewrite String.eqb_refl.
      - destruct (String.eqb_spec (id o') (id o)) as [Heq | _].
        + exfalso. apply (Hbefore o'); [left | by rewrite Heq].
        + apply IH. intros o'' Ho''. apply Hbefore. by right. }
    split; [done |]. unfold triggerText. rewrite Hfind. simpl.
    case_decide as Hl.
    + by rewrite Hl.
    + destruct (String.eqb_spec (label o) EmptyString) as [? | _]; done.
Qed.

Lemma C5_trigger_text_witness :
  triggerText (options sample_props) (Some "2") = "Option 2" /\
  triggerText (options sample_props) (Some "7") = "Select ...".
Proof.
  split.
  - apply (proj2 (C5_trigger_text (options sample_props) (Some "2"))
             [ {| id := "1"; label := "Option 1" |} ]
             {| id := "2"; label := "Option 2" |} []).
    + reflexivity.
    + intros o' Ho'. apply list_elem_of_singleton in Ho' as ->. discriminate.
    + reflexivity.
  - apply (proj1 (C5_trigger_text (options sample_props) (Some "7"))).
    intros o Ho. simpl in Ho.
    apply elem_of_cons in Ho as [-> | Ho]; [discriminate |].
    apply list_elem_of_singleton in Ho as ->. discriminate.
Defined.

(** C6. In every phase in which the menu is rendered ([OPENING], [OPEN] and
    [CLOSING] of the four-state variant, open in the two-state variant), the
    menu has one button per option, and activating the button of an option
    calls [onSelect] exactly once, with that option's [{ id, label }]. *)
Theorem C6_select_once :
  forall p i o,
    options p !! i = Some o ->
    (forall st : Animated.State,
       Animated.reachable p st -> Animated.dropdownStatus st <> Animated.CLOSED ->
       (exists entries,
          Animated.DropdownMenu (options p) (Animated.dropdownStatus st)
          = Some entries /\
          length entries = length (options p)) /\
       exists st',
         Animated.step p (OptionClick i) st = Normal st' /\
         Animated.onSelectCalls st'
         = Animated.onSelectCalls st ++ [ {| id := id o; label := label o |} ]) /\
    (forall st : Plain.State,
       Plain.reachable p st -> Plain.isOpen st = true ->
       length (snd (Plain.DropdownMenu (options p) (Plain.menuPosition st)))
       = length (options p) /\
       exists st',
         Plain.step p (OptionClick i) st = Normal st' /\
         Plain.onSelectCalls st'
         = Plain.onSelectCalls st ++ [ {| id := id o; label := label o |} ]).
Proof.
  intros p i o Hi.
  assert (menuEntries (options p) !! i
          = Some {| key := id o; text := label o;
                    onClick := {| id := id o; label := label o |} |}) as He.
  { unfold menuEntries. by rewrite list_lookup_fmap, Hi. }
  split.
  - intros st Hr Hop. destruct (anim_reachable_invariant p st Hr) as [Hwf Hpos].
    unfold Animated.step, Animated.DropdownMenu. case_decide; [done |].
    split.
    { eexists. split; [done |]. unfold menuEntries. by rewrite length_map. }
    rewrite He.
    destruct (anim_onSelect_invariant {| id := id o; label := label o |} st Hwf Hpos)
      as [Hwf' Hpos'].
    destruct (anim_onTriggerClick_spec p _ Hwf' Hpos')
      as (st' & Hstep & _ & _ & _ & _ & Hcalls & _).
    exists st'. split; [exact Hstep |]. by rewrite Hcalls.
  - intros st Hr Hop. destruct (plain_reachable_invariant p st Hr) as [Hwf Hpos].
    unfold Plain.step, Plain.DropdownMenu. rewrite Hop.
    cbn [snd]. split.
    { unfold menuEntries. by rewrite length_map. }
    rewrite He.
    destruct (plain_onSelect_invariant p {| id := id o; label := label o |} st
                Hwf Hpos) as [Hwf' Hpos'].
    destruct (plain_onTriggerClick_spec p _ Hwf' Hpos')
      as (st' & Hstep & _ & _ & _ & _ & Hcalls & _).
    exists st'. split; [exact Hstep |]. by rewrite Hcalls.
Qed.

Lemma C6_select_once_witness :
  (exists st',
     Animated.step sample_props (OptionClick 1)
       (Animated.after sample_props [TriggerClick; AnimationEnd; TriggerClick]
          layout_below) = Normal st' /\
     Animated.onSelectCalls st' = [ {| id := "2"; label := "Option 2" |} ]) /\
  (exists st',
     Plain.step sample_props (OptionClick 0)
       (Plain.after sample_props [TriggerClick] layout_below) = Normal st' /\
     Plain.onSelectCalls st' = [ {| id := "1"; label := "Option 1" |} ]).
Proof.
  split.
  - apply (proj1 (C6_select_once sample_props 1%nat
                    {| id := "2"; label := "Option 2" |} eq_refl)
             (Animated.after sample_props [TriggerClick; AnimationEnd; TriggerClick]
                layout_below)).
    + apply (anim_reachable_run sample_props
               [TriggerClick; AnimationEnd; TriggerClick]
               (Animated.mount layout_below));
        [apply Animated.reach_mount | reflexivity].
    + discriminate.
  - apply (proj2 (C6_select_once sample_props 0%nat
                    {| id := "1"; label := "Option 1" |} eq_refl)
             (Plain.after sample_props [TriggerClick] layout_below)).
    + apply (plain_reachable_run sample_props [TriggerClick]
               (Plain.mount layout_below));
        [apply Plain.reach_mount | reflexivity].
    + reflexivity.
Defined.

(** C7, as stated, fails on the focus: the component never moves it. With the
    focus on the option button that is activated, the selection fires the
    callback and the status goes to [CLOSING], while the focus stays on that
    button and is not given to the trigger. *)
Lemma C7_counterexample :
  Animated.reachable sample_props
    (Animated.after sample_props
       [TriggerClick; AnimationEnd; FocusMove (MenuButton 0)] layout_below) /\
  Animated.dropdownStatus
    (Animated.after sample_props
       [TriggerClick; AnimationEnd; FocusMove (MenuButton 0)] layout_below)
  = Animated.OPEN /\
  exists st',
    Animated.step sample_props (OptionClick 0)
      (Animated.after sample_props
         [TriggerClick; AnimationEnd; FocusMove (MenuButton 0)] layout_below)
    = Normal st' /\
    Animated.onSelectCalls st' = [ {| id := "1"; label := "Option 1" |} ] /\
    Animated.dropdownStatus st' = Animated.CLOSING /\
    Animated.activeElement st' = MenuButton 0 /\
    Animated.activeElement st' <> TriggerButton.
Proof.
  split_and!.
  - apply (anim_reachable_run sample_props
             [TriggerClick; AnimationEnd; FocusMove (MenuButton 0)]
             (Animated.mount layout_below));
      [apply Animated.reach_mount | reflexivity].
  - reflexivity.
  - eexists. split; [reflexivity |]. split_and!; done.
Qed.

(** C7, amended. In every open state, the activation of an option button calls
    the callback and then closes the dropdown: the status goes from [OPEN] or
    [OPENING] to [CLOSING], and [isOpen] from true to false with the menu
    removed. The focus is not given to the trigger: the four-state variant
    leaves the focused element as it is, and in the two-state variant a focus
    held inside the removed menu falls to the body. *)
Theorem C7_select_closes :
  forall p i o,
    options p !! i = Some o ->
    (forall st : Animated.State,
       Animated.reachable p st ->
       Animated.includes Animated.OPEN_DROPDOWN_STATUSES (Animated.dropdownStatus st)
       = true ->
       exists st',
         Animated.step p (OptionClick i) st = Normal st' /\
         Animated.onSelectCalls st' = Animated.onSelectCalls st ++ [o] /\
         Animated.dropdownStatus st' = Animated.CLOSING /\
         Animated.activeElement st' = Animated.activeElement st) /\
    (forall st : Plain.State,
       Plain.reachable p st -> Plain.isOpen st = true ->
       exists st',
         Plain.step p (OptionClick i) st = Normal st' /\
         Plain.onSelectCalls st' = Plain.onSelectCalls st ++ [o] /\
         Plain.isOpen st' = false /\ Plain.menuRef st' = None /\
         Plain.activeElement st'
         = if contains MenuList (Plain.activeElement st) then Body
           else Plain.activeElement st).
Proof.
  intros p i o Hi.
  assert (menuEntries (options p) !! i
          = Some {| key := id o; text := label o;
                    onClick := {| id := id o; label := label o |} |}) as He.
  { unfold menuEntries. by rewrite list_lookup_fmap, Hi. }
  assert ({| id := id o; label := label o |} = o) as Ho by (by destruct o).
  split.
  - intros st Hr Hop. destruct (anim_reachable_invariant p st Hr) as [Hwf Hpos].
    unfold Animated.step, Animated.DropdownMenu.
    case_decide as Hcl; [by rewrite Hcl in Hop |].
    rewrite He. cbn [onClick]. rewrite Ho.
    destruct (anim_onSelect_invariant o st Hwf Hpos) as [Hwf' Hpos'].
    destruct (anim_onTriggerClick_spec p _ Hwf' Hpos')
      as (st' & Hstep & Hs & _ & _ & _ & Hcalls & Hact).
    exists st'. split_and!; try done. rewrite Hs. simpl.
    by destruct (Animated.dropdownStatus st).
  - intros st Hr Hop. destruct (plain_reachable_invariant p st Hr) as [Hwf Hpos].
    unfold Plain.step, Plain.DropdownMenu. rewrite Hop. cbn [snd].
    rewrite He. cbn [onClick]. rewrite Ho.
    destruct (plain_onSelect_invariant p o st Hwf Hpos) as [Hwf' Hpos'].
    destruct (plain_onTriggerClick_spec p _ Hwf' Hpos')
      as (st' & Hstep & Hs & (_ & Hm & _) & _ & _ & Hcalls & Hact).
    simpl in Hs, Hact. rewrite Hop in Hs, Hact. simpl in Hs, Hact.
    exists st'. split_and!; try done.
    rewrite Hs in Hm. by destruct (Plain.menuRef st').
Qed.

Lemma C7_select_closes_witness :
  (exists st',
     Animated.step sample_props (OptionClick 0)
       (Animated.after sample_props [TriggerClick] layout_below) = Normal st' /\
     Animated.onSelectCalls st' = [ {| id := "1"; label := "Option 1" |} ] /\
     Animated.dropdownStatus st' = Animated.CLOSING /\
     Animated.activeElement st' = Body) /\
  (exists st',
     Plain.step sample_props (OptionClick 1)
       (Plain.after sample_props [TriggerClick; FocusMove (MenuButton 1)]
          layout_below) = Normal st' /\
     Plain.onSelectCalls st' = [ {| id := "2"; label := "Option 2" |} ] /\
     Plain.isOpen st' = false /\ Plain.menuRef st' = None /\
     Plain.activeElement st' = Body).
Proof.
  split.
  - apply (proj1 (C7_select_closes sample_props 0%nat
                    {| id := "1"; label := "Option 1" |} eq_refl)
             (Animated.after sample_props [TriggerClick] layout_below)).
    + apply (anim_reachable_run sample_props [TriggerClick]
               (Animated.mount layout_below));
        [apply Animated.reach_mount | reflexivity].
    + reflexivity.
  - apply (proj2 (C7_select_closes sample_props 1%nat
                    {| id := "2"; label := "Option 2" |} eq_refl)
             (Plain.after sample_props [TriggerClick; FocusMove (MenuButton 1)]
                layout_below)).
    + apply (plain_reachable_run sample_props
               [TriggerClick; FocusMove (MenuButton 1)] (Plain.mount layout_below));
        [apply Plain.reach_mount | reflexivity].
    + reflexivity.
Defined.

(** C8. A window resize never changes the open state: in every reachable state
    the status (the phase included), respectively [isOpen], is the same after
    the resize handler as before. While the menu is open the handler stores the
    placement computed, by the same rule, from the layout after the resize. *)
Theorem C8_resize :
  (forall p (st : Animated.State) l,
     Animated.reachable p st ->
     exists st',
       Animated.step p (Resize l) st = Normal st' /\
       Animated.dropdownStatus st' = Animated.dropdownStatus st /\
       (Animated.includes Animated.OPEN_DROPDOWN_STATUSES (Animated.dropdownStatus st)
        = true ->
        exists m',
          Animated.menuRef st' = Some m' /\
          Animated.inlinePosition m'
          = Animated.pxPosition
              (spec_position (triggerRect l) (menuHeight l) (innerHeight l)))) /\
  (forall p (st : Plain.State) l,
     Plain.reachable p st ->
     exists st',
       Plain.step p (Resize l) st = Normal st' /\
       Plain.isOpen st' = Plain.isOpen st /\
       (Plain.isOpen st = true ->
        Plain.menuPosition st'
        = spec_position (triggerRect l) (menuHeight l) (innerHeight l))).
Proof.
  split.
  - intros p st l Hr. destruct (anim_reachable_invariant p st Hr) as [Hwf _].
    destruct (anim_resizeListener_spec l st Hwf)
      as (st' & Hstep & Hs & (_ & _ & Ho') & Hpos' & Hl & _).
    exists st'. split_and!; try done. intros Hopen.
    destruct Ho' as (m' & Hm' & _).
    { rewrite Hs. intros Hcl. by rewrite Hcl in Hopen. }
    exists m'. split; [done |]. rewrite (Hpos' m' Hm'). by rewrite Hl.
  - intros p st l Hr. destruct (plain_reachable_invariant p st Hr) as [Hwf _].
    destruct (plain_resizeListener_spec p l st Hwf)
      as (st' & Hstep & Hs & _ & Hpos' & Hl & _).
    exists st'. split_and!; try done. intros Hopen.
    rewrite Hpos' by congruence. by rewrite Hl.
Qed.

Lemma C8_resize_witness :
  (exists st',
     Animated.step sample_props (Resize layout_above)
       (Animated.after sample_props [TriggerClick] layout_below) = Normal st' /\
     Animated.dropdownStatus st' = Animated.OPENING /\
     exists m',
       Animated.menuRef st' = Some m' /\
       Animated.inlinePosition m' = (None, Some (Px 20), Some (Px 100), Some (Px 200))) /\
  (exists st',
     Plain.step sample_props (Resize layout_above)
       (Plain.after sample_props [TriggerClick] layout_below) = Normal st' /\
     Plain.isOpen st' = true /\
     Pos.bottom (Plain.menuPosition st') = Some 20).
Proof.
  split.
  - destruct (proj1 C8_resize sample_props
                (Animated.after sample_props [TriggerClick] layout_below) layout_above)
      as (st' & Hstep & Hs & Hpos).
    + apply (anim_reachable_run sample_props [TriggerClick]
               (Animated.mount layout_below));
        [apply Animated.reach_mount | reflexivity].
    + exists st'. split; [exact Hstep |]. split; [exact Hs |].
      exact (Hpos eq_refl).
  - destruct (proj2 C8_resize sample_props
                (Plain.after sample_props [TriggerClick] layout_below) layout_above)
      as (st' & Hstep & Hs & Hpos).
    + apply (plain_reachable_run sample_props [TriggerClick]
               (Plain.mount layout_below));
        [apply Plain.reach_mount | reflexivity].
    + exists st'. split; [exact Hstep |]. split; [exact Hs |].
      rewrite (Hpos eq_refl). reflexivity.
Defined.

(** C9, as stated, fails in the two-state variant: a resize while the menu is
    not mounted is no no-op. The recompute takes the menu height to be 0 and
    stores a position, so that [menuPosition] is no longer what it was. *)
Lemma C9_counterexample :
  Plain.reachable sample_props (Plain.mount layout_below) /\
  Plain.menuRef (Plain.mount layout_below) = None /\
  exists st',
    Plain.step sample_props (Resize layout_below) (Plain.mount layout_below)
    = Normal st' /\
    Pos.top (Plain.menuPosition st') = Some 530 /\
    Plain.menuPosition st' <> Plain.menuPosition (Plain.mount layout_below).
Proof.
  split_and!.
  - apply Plain.reach_mount.
  - reflexivity.
  - eexists. split; [reflexivity |]. split; done.
Qed.

(** C9, amended. The recompute never raises an error. In the four-state
    variant it changes nothing when the trigger or the menu is not mounted. In
    the two-state variant it changes nothing when the trigger is not mounted;
    when only the menu is not mounted it measures a menu height of 0 and
    stores the placement computed with it. *)
Theorem C9_recompute_unmounted :
  (forall st : Animated.State,
     (exists st', Animated.updateMenuCoordinates st = Normal st') /\
     (Animated.dropdownRef st = None \/ Animated.menuRef st = None ->
      Animated.updateMenuCoordinates st = Normal st)) /\
  (forall p (st : Plain.State),
     (exists st', Plain.updateMenuCoordinates p st = Normal st') /\
     (Plain.dropdownRef st = None -> Plain.updateMenuCoordinates p st = Normal st) /\
     (is_Some (Plain.dropdownRef st) -> Plain.menuRef st = None ->
      exists st',
        Plain.updateMenuCoordinates p st = Normal st' /\
        Plain.menuPosition st'
        = spec_position (triggerRect (Plain.layout st)) 0
            (innerHeight (Plain.layout st)))).
Proof.
  split.
  - intros st. split.
    + destruct (anim_updateMenuCoordinates_total st) as (st' & ? & _). eauto.
    + apply anim_updateMenuCoordinates_unmounted.
  - intros p st. split_and!.
    + destruct (Plain.dropdownRef st) as [d |] eqn:Hd.
      * rewrite (plain_updateMenuCoordinates_mounted p st d Hd). eauto.
      * rewrite (plain_updateMenuCoordinates_unmounted p st Hd). eauto.
    + apply plain_updateMenuCoordinates_unmounted.
    + intros [d Hd] Hm. rewrite (plain_updateMenuCoordinates_mounted p st d Hd).
      eexists. split; [reflexivity |].
      rewrite (proj1 (plain_setMenuPosition_frame p _ st)).
      by rewrite (plain_measuredMenuHeight_unmounted st Hm).
Qed.

Lemma C9_recompute_unmounted_witness :
  Animated.updateMenuCoordinates (Animated.mount layout_above)
  = Normal (Animated.mount layout_above) /\
  Plain.updateMenuCoordinates sample_props
    {| Plain.isOpen := false;
       Plain.menuPosition := Plain.menuPosition (Plain.mount layout_above);
       Plain.dropdownRef := None; Plain.menuRef := None;
       Plain.layout := layout_above; Plain.activeElement := Body;
       Plain.onSelectCalls := [] |}
  = Normal
      {| Plain.isOpen := false;
         Plain.menuPosition := Plain.menuPosition (Plain.mount layout_above);
         Plain.dropdownRef := None; Plain.menuRef := None;
         Plain.layout := layout_above; Plain.activeElement := Body;
         Plain.onSelectCalls := [] |}.
Proof.
  split.
  - apply (proj1 C9_recompute_unmounted (Animated.mount layout_above)).
    right. reflexivity.
  - apply (proj2 C9_recompute_unmounted sample_props). reflexivity.
Defined.

(** C10. In the two-state variant's renderer a coordinate whose value is 0
    (the double [0] or [-0]) is left out of the inline style: with [left],
    [width], [top] or [bottom] equal to 0 the style object has no such
    property. The style of a rendered menu is that object. *)
Theorem C10_zero_omitted :
  forall q : PositionCoordinates,
    (forall n, Pos.left q = Some n -> is_zero n = true ->
               Plain.menuStyle q !! "left" = None) /\
    (forall n, Pos.width q = Some n -> is_zero n = true ->
               Plain.menuStyle q !! "width" = None) /\
    (forall n, Pos.top q = Some n -> is_zero n = true ->
               Plain.menuStyle q !! "top" = None) /\
    (forall n, Pos.bottom q = Some n -> is_zero n = true ->
               Plain.menuStyle q !! "bottom" = None) /\
    Plain.menuStyle q !! "position" = Some (Kw "fixed") /\
    (forall p (st : Plain.State) m,
       Plain.reachable p st -> Plain.menuRef st = Some m ->
       Plain.menuPosition st = q -> Plain.style m = Plain.menuStyle q).
Proof.
  intros q. unfold Plain.menuStyle. split_and!.
  - intros n -> Hz. rewrite !plain_spread_and_other by done.
    by rewrite plain_spread_and_zero.
  - intros n -> Hz. rewrite !plain_spread_and_other by done.
    rewrite plain_spread_and_zero by done. by rewrite plain_spread_and_other.
  - intros n -> Hz. rewrite !plain_spread_and_other by done.
    rewrite plain_spread_and_zero by done. by rewrite !plain_spread_and_other.
  - intros n -> Hz. rewrite plain_spread_and_zero by done.
    by rewrite !plain_spread_and_other.
  - by rewrite !plain_spread_and_other.
  - intros p st m Hr Hm <-.
    destruct (plain_reachable_invariant p st Hr) as [(_ & _ & Hs & _) _].
    by apply Hs.
Qed.

Lemma C10_zero_omitted_witness :
  Plain.menuStyle
    {| Pos.top := Some 30; Pos.bottom := None; Pos.left := Some 0;
       Pos.width := Some 200 |} !! "left" = None /\
  Plain.menuStyle
    {| Pos.top := Some (-0); Pos.bottom := None; Pos.left := Some 100;
       Pos.width := Some 200 |} !! "top" = None.
Proof.
  split.
  - apply (proj1 (C10_zero_omitted
                    {| Pos.top := Some 30; Pos.bottom := None; Pos.left := Some 0;
                       Pos.width := Some 200 |}) 0); reflexivity.
  - apply (proj1 (proj2 (proj2 (C10_zero_omitted
                    {| Pos.top := Some (-0); Pos.bottom := None;
                       Pos.left := Some 100; Pos.width := Some 200 |}))) (-0));
      reflexivity.
Defined.

End Claims.

(** ** Further properties of the code *)

Section Extras.
Import AnimatedFacts PlainFacts MoreAnimatedFacts MorePlainFacts.

(** X1. No event handler of either variant raises an error, in any state at
    all: every access to [dropdownRef.current] or [menuRef.current] comes
    after a test that it is not [null]. *)
Theorem X1_handlers_never_throw :
  forall p ev,
    (forall st : Animated.State, exists st', Animated.step p ev st = Normal st') /\
    (forall st : Plain.State, exists st', Plain.step p ev st = Normal st').
Proof.
  intros p ev. split; intros st;
    [apply anim_step_total | apply plain_step_total].
Qed.

(** X2. In every reachable state the trigger is attached. In the four-state
    variant the menu element exists exactly when the status is not [CLOSED],
    and its [animationend] listener is the one of the current status, never
    one left from an earlier render. In the two-state variant the menu
    element exists exactly when [isOpen] holds. *)
Theorem X2_menu_mounted_iff_shown :
  (forall p (st : Animated.State),
     Animated.reachable p st ->
     Animated.dropdownRef st = Some TriggerButton /\
     (Animated.menuRef st = None <-> Animated.dropdownStatus st = Animated.CLOSED) /\
     (forall m, Animated.menuRef st = Some m ->
                Animated.animationend m = Some (Animated.dropdownStatus st))) /\
  (forall p (st : Plain.State),
     Plain.reachable p st ->
     Plain.dropdownRef st = Some TriggerButton /\
     (is_Some (Plain.menuRef st) <-> Plain.isOpen st = true)).
Proof.
  split.
  - intros p st Hr. destruct (anim_reachable_invariant p st Hr) as [(Hd & Hc & Ho) _].
    split_and!; [done | | ].
    + split; [| done]. intros Hm.
      destruct (decide (Animated.dropdownStatus st = Animated.CLOSED)) as [| Hne];
        [done |].
      destruct (Ho Hne) as (m & ? & _). congruence.
    + intros m Hm.
      destruct (decide (Animated.dropdownStatus st = Animated.CLOSED)) as [Hcl | Hne].
      * rewrite (Hc Hcl) in Hm. done.
      * destruct (Ho Hne) as (m' & ? & ?). congruence.
  - intros p st Hr. destruct (plain_reachable_invariant p st Hr) as [(Hd & Hm & _) _].
    split; [done |]. rewrite <- Hm. destruct (Plain.menuRef st); simpl.
    + split; [done | by eexists].
    + split; [by intros [? ?] | done].
Qed.

Lemma X2_menu_mounted_iff_shown_witness :
  (Animated.menuRef
     (Animated.after sample_props [TriggerClick; AnimationEnd; TriggerClick; AnimationEnd]
        layout_below) = None) /\
  is_Some (Plain.menuRef (Plain.after sample_props [TriggerClick] layout_below)).
Proof.
  split.
  - apply (proj1 X2_menu_mounted_iff_shown sample_props
             (Animated.after sample_props
                [TriggerClick; AnimationEnd; TriggerClick; AnimationEnd] layout_below)).
    + apply (anim_reachable_run sample_props
               [TriggerClick; AnimationEnd; TriggerClick; AnimationEnd]
               (Animated.mount layout_below));
        [apply Animated.reach_mount | vm_compute; reflexivity].
    + vm_compute; reflexivity.
  - apply (proj2 X2_menu_mounted_iff_shown sample_props
             (Plain.after sample_props [TriggerClick] layout_below)).
    + apply (plain_reachable_run sample_props [TriggerClick]
               (Plain.mount layout_below));
        [apply Plain.reach_mount | vm_compute; reflexivity].
    + vm_compute; reflexivity.
Defined.

(** X3. In every reachable state of the four-state variant the inline style
    of the mounted menu holds exactly three declarations, those that the
    recompute writes for a layout: [left], [width] and either [top] or
    [bottom]. Nothing of an earlier placement is left behind, and no other
    property is ever set. The layout is the current one in every state
    reached by events among which the layout changes with a [resize] only,
    and after every [resize]. *)
Theorem X3_inline_style_exact :
  (forall p (st : Animated.State) m,
     Animated.reachable p st -> Animated.menuRef st = Some m ->
     exists lm, Animated.style m = AnimatedView.declarations lm) /\
  (forall p evs l (st : Animated.State) m,
     forallb (fun ev => negb (is_layoutChange ev)) evs = true ->
     Animated.run p evs (Animated.mount l) = Normal st ->
     Animated.menuRef st = Some m ->
     Animated.style m = AnimatedView.declarations (Animated.layout st)) /\
  (forall p l (st st' : Animated.State) m,
     Animated.reachable p st -> Animated.step p (Resize l) st = Normal st' ->
     Animated.menuRef st' = Some m ->
     Animated.style m = AnimatedView.declarations l).
Proof.
  split_and!.
  - intros p st m Hr Hm. destruct (anim_reachable_styled p st Hr) as [lm Hsty].
    exists lm. rewrite (Hsty m Hm). apply anim_placed_new.
  - intros p evs l st m Hevs Hrun Hm.
    rewrite (anim_run_styled_current p evs (Animated.mount l) st
               (Animated.reach_mount p l) (fun m => ltac:(done)) Hevs Hrun m Hm).
    apply anim_placed_new.
  - intros p l st st' m Hr Hstep Hm.
    rewrite (anim_resize_styled p l st st' Hr Hstep m Hm). apply anim_placed_new.
Qed.

Lemma X3_inline_style_exact_witness :
  (exists m,
     Animated.menuRef (Animated.after sample_props [TriggerClick; Resize layout_above]
                         layout_below) = Some m /\
     Animated.style m
     = <["width" := Px 200]> (<["left" := Px 100]> (<["bottom" := Px 20]> ∅))) /\
  (exists m,
     Animated.menuRef
       (Animated.after sample_props [TriggerClick; LayoutChange layout_above]
          layout_below) = Some m /\
     exists lm, Animated.style m = AnimatedView.declarations lm).
Proof.
  split.
  - eexists. split; [vm_compute; reflexivity |].
    apply (proj1 (proj2 X3_inline_style_exact) sample_props
             [TriggerClick; Resize layout_above] layout_below
             (Animated.after sample_props [TriggerClick; Resize layout_above]
                layout_below)).
    + reflexivity.
    + vm_compute; reflexivity.
    + vm_compute; reflexivity.
  - eexists. split; [vm_compute; reflexivity |].
    apply (proj1 X3_inline_style_exact sample_props
             (Animated.after sample_props
                [TriggerClick; LayoutChange layout_above] layout_below)).
    + apply (anim_reachable_run sample_props
               [TriggerClick; LayoutChange layout_above]
               (Animated.mount layout_below));
        [apply Animated.reach_mount | vm_compute; reflexivity].
    + vm_compute; reflexivity.
Defined.

(** X4. The chevron of the four-state trigger follows the click, not the
    animation: in every reachable state a click on the trigger changes the
    chevron's class at once, and an [animationend] event leaves it as it is
    while removing the phase class from a menu that stays rendered. The
    chevron shows closed while the menu is still in the document exactly in
    the status [CLOSING]. In the two-state variant the chevron shows open
    exactly when the menu is in the document. *)
Theorem X4_chevron_follows_click :
  (forall p (st st' : Animated.State),
     Animated.reachable p st ->
     (Animated.step p TriggerClick st = Normal st' ->
      AnimatedView.chevron (AnimatedView.Dropdown p st')
      <> AnimatedView.chevron (AnimatedView.Dropdown p st)) /\
     (Animated.step p AnimationEnd st = Normal st' ->
      AnimatedView.chevron (AnimatedView.Dropdown p st')
      = AnimatedView.chevron (AnimatedView.Dropdown p st) /\
      forall classes entries,
        AnimatedView.menu (AnimatedView.Dropdown p st') = Some (classes, entries) ->
        classes = ["dropdown-menu"]) /\
     (AnimatedView.chevron (AnimatedView.Dropdown p st) = "chevron-icon-closed" /\
      is_Some (Animated.menuRef st)
      <-> Animated.dropdownStatus st = Animated.CLOSING)) /\
  (forall p (st : Plain.State),
     Plain.reachable p st ->
     (PlainView.chevron (PlainView.Dropdown p st) = "chevron-icon-open"
      <-> is_Some (Plain.menuRef st))).
Proof.
  split.
  - intros p st st' Hr. destruct (anim_reachable_invariant p st Hr) as [Hwf Hpos].
    split_and!.
    + intros Hstep.
      destruct (anim_onTriggerClick_spec p st Hwf Hpos) as (st1 & Hstep1 & Hs & _).
      simpl in Hstep. rewrite Hstep1 in Hstep. injection Hstep as <-.
      simpl. rewrite Hs. by destruct (Animated.dropdownStatus st).
    + intros Hstep. simpl in Hstep. pose proof Hwf as (_ & Hc & Ho).
      destruct (decide (Animated.dropdownStatus st = Animated.CLOSED)) as [Hcl | Hop].
      { rewrite (Hc Hcl) in Hstep. injection Hstep as <-. simpl. rewrite Hcl.
        split; [done |]. by intros ? ?. }
      destruct (Ho Hop) as (m & Hm & Ha). rewrite Hm, Ha in Hstep.
      destruct (anim_onTransitionEnd_spec p st Hwf Hpos) as (st1 & Hstep1 & Hs & _).
      rewrite Hstep1 in Hstep. injection Hstep as <-. simpl. rewrite Hs.
      destruct (Animated.dropdownStatus st); simpl; split; try done;
        by intros ? ? [= <- _].
    + destruct Hwf as (_ & Hc & Ho). simpl. split.
      * intros [Hch [m Hm]].
        destruct (Animated.dropdownStatus st) eqn:Hs; try done.
        rewrite Hc in Hm; done.
      * intros Hs. rewrite Hs. split; [done |].
        destruct Ho as (m & Hm & _); [by rewrite Hs |]. by exists m.
  - intros p st Hr. destruct (plain_reachable_invariant p st Hr) as [(_ & Hm & _) _].
    simpl. unfold PlainView.chevronClassName. rewrite <- Hm.
    destruct (Plain.menuRef st); simpl.
    + split; [by eexists | done].
    + split; [done | by intros [? ?]].
Qed.

Lemma X4_chevron_follows_click_witness :
  AnimatedView.chevron
    (AnimatedView.Dropdown sample_props
       (Animated.after sample_props [TriggerClick] layout_below))
  <> AnimatedView.chevron
       (AnimatedView.Dropdown sample_props (Animated.mount layout_below)) /\
  (PlainView.chevron
     (PlainView.Dropdown sample_props
        (Plain.after sample_props [TriggerClick] layout_below))
   = "chevron-icon-open"
   <-> is_Some (Plain.menuRef (Plain.after sample_props [TriggerClick] layout_below))).
Proof.
  split.
  - apply (proj1 X4_chevron_follows_click sample_props (Animated.mount layout_below)
             (Animated.after sample_props [TriggerClick] layout_below)
             (Animated.reach_mount sample_props layout_below)).
    vm_compute; reflexivity.
  - apply (proj2 X4_chevron_follows_click sample_props
             (Plain.after sample_props [TriggerClick] layout_below)).
    apply (plain_reachable_run sample_props [TriggerClick] (Plain.mount layout_below));
      [apply Plain.reach_mount | vm_compute; reflexivity].
Defined.

(** X5. The [mousedown]/[touchstart] listener never opens the dropdown and
    does nothing unless it is open: in every reachable state that is not open
    ([CLOSED] or [CLOSING]; [isOpen] false) the event leaves the whole state as
    it is, whatever its target, and in an open state the status after it is
    the one before or [CLOSING]. *)
Theorem X5_pointer_down_never_opens :
  (forall p (st st' : Animated.State) k target,
     Animated.reachable p st ->
     Animated.step p (PointerDown k target) st = Normal st' ->
     (Animated.includes Animated.OPEN_DROPDOWN_STATUSES (Animated.dropdownStatus st)
      = false -> st' = st) /\
     (Animated.dropdownStatus st' = Animated.dropdownStatus st \/
      Animated.dropdownStatus st' = Animated.CLOSING)) /\
  (forall p (st st' : Plain.State) k target,
     Plain.reachable p st ->
     Plain.step p (PointerDown k target) st = Normal st' ->
     (Plain.isOpen st = false -> st' = st) /\
     (Plain.isOpen st' = true -> Plain.isOpen st = true)).
Proof.
  split.
  - intros p st st' k target Hr Hstep.
    destruct (anim_reachable_invariant p st Hr) as [Hwf Hpos].
    destruct (anim_listener_spec p target st Hwf Hpos)
      as (st1 & Hstep1 & _ & _ & _ & _ & Hin & Hclosed & Hout).
    simpl in Hstep. rewrite Hstep1 in Hstep. injection Hstep as <-.
    assert (Animated.dropdownStatus st = Animated.CLOSING -> st1 = st) as Hclosing.
    { intros Hs. revert Hstep1. unfold Animated.listener.
      destruct (negb _); [by intros [= <-] |].
      destruct (Animated.menuRef st); simpl; [| done].
      destruct (contains MenuList target); [by intros [= <-] |].
      destruct (match Animated.dropdownRef st with
                | Some dropdown => contains dropdown target
                | None => false
                end); [by intros [= <-] |].
      unfold Animated.closeDropdown, Animated.setDropdownStatus.
      rewrite Hs. simpl. by intros [= <-]. }
    split.
    + intros Hno. destruct (Animated.dropdownStatus st) eqn:Hs; try done; auto.
    + destruct (contains MenuList target || contains TriggerButton target) eqn:Hc.
      * left. by rewrite Hin.
      * apply orb_false_elim in Hc as [Hc1 Hc2].
        destruct (decide (Animated.dropdownStatus st = Animated.CLOSED)) as [Hcl | Hop].
        -- left. by rewrite Hclosed.
        -- right. by apply Hout.
  - intros p st st' k target Hr Hstep.
    destruct (plain_reachable_invariant p st Hr) as [Hwf Hpos].
    destruct (plain_listener_spec p target st Hwf Hpos)
      as (st1 & Hstep1 & _ & _ & _ & _ & Hin & Hclosed & Hout).
    simpl in Hstep. rewrite Hstep1 in Hstep. injection Hstep as <-.
    split; [done |]. intros Ho.
    destruct (Plain.isOpen st) eqn:Hs; [done |]. rewrite Hclosed in Ho by done.
    congruence.
Qed.

Lemma X5_pointer_down_never_opens_witness :
  Animated.after sample_props
    [TriggerClick; AnimationEnd; TriggerClick; PointerDown mousedown (Other 3)]
    layout_below
  = Animated.after sample_props [TriggerClick; AnimationEnd; TriggerClick] layout_below /\
  Plain.after sample_props [PointerDown touchstart Body] layout_below
  = Plain.mount layout_below.
Proof.
  split.
  - apply (proj1 X5_pointer_down_never_opens sample_props
             (Animated.after sample_props [TriggerClick; AnimationEnd; TriggerClick]
                layout_below)
             (Animated.after sample_props
                [TriggerClick; AnimationEnd; TriggerClick;
                 PointerDown mousedown (Other 3)] layout_below)
             mousedown (Other 3)).
    + apply (anim_reachable_run sample_props
               [TriggerClick; AnimationEnd; TriggerClick]
               (Animated.mount layout_below));
        [apply Animated.reach_mount | vm_compute; reflexivity].
    + vm_compute; reflexivity.
    + vm_compute; reflexivity.
  - apply (proj2 X5_pointer_down_never_opens sample_props (Plain.mount layout_below)
             (Plain.after sample_props [PointerDown touchstart Body] layout_below)
             touchstart Body (Plain.reach_mount sample_props layout_below)).
    + vm_compute; reflexivity.
    + vm_compute; reflexivity.
Defined.

Lemma menuEntries_lookup (opts : list Option) i :
  menuEntries opts !! i
  = (fun o => {| key := id o; text := label o;
                 onClick := {| id := id o; label := label o |} |}) <$> opts !! i.
Proof. unfold menuEntries. apply list_lookup_fmap. Qed.

Lemma anim_step_calls p ev st st' :
  Animated.wf st -> Animated.positioned st ->
  Animated.step p ev st = Normal st' ->
  Animated.onSelectCalls st'
  = Animated.onSelectCalls st
    ++ logged (options p)
         (bool_decide (Animated.dropdownStatus st <> Animated.CLOSED)) ev.
Proof.
  intros Hwf Hpos Hstep.
  destruct ev as [| | k target | l | i | n | l];
    cbn [Animated.step logged] in *; rewrite ?app_nil_r.
  - destruct (anim_onTriggerClick_spec p st Hwf Hpos) as (st1 & H1 & _ & _ & _ & _ & Hc & _).
    congruence.
  - pose proof Hwf as (_ & Hc & Ho).
    destruct (decide (Animated.dropdownStatus st = Animated.CLOSED)) as [Hcl | Hop].
    { rewrite (Hc Hcl) in Hstep. congruence. }
    destruct (Ho Hop) as (m & Hm & Ha). rewrite Hm, Ha in Hstep.
    destruct (anim_onTransitionEnd_spec p st Hwf Hpos) as (st1 & H1 & _ & _ & _ & _ & Hcalls).
    congruence.
  - destruct (anim_listener_spec p target st Hwf Hpos) as (st1 & H1 & _ & _ & _ & Hcalls & _).
    congruence.
  - destruct (anim_resizeListener_spec l st Hwf) as (st1 & H1 & _ & _ & _ & _ & Hcalls & _).
    congruence.
  - unfold Animated.DropdownMenu in Hstep. case_decide as Hcl.
    + injection Hstep as <-. rewrite bool_decide_eq_false_2 by auto.
      destruct (options p !! i); by rewrite app_nil_r.
    + rewrite bool_decide_eq_true_2 by done. rewrite menuEntries_lookup in Hstep.
      destruct (options p !! i) as [o |]; simpl in Hstep.
      * destruct (anim_onSelect_invariant {| id := id o; label := label o |} st Hwf Hpos)
          as [Hwf' Hpos'].
        destruct (anim_onTriggerClick_spec p _ Hwf' Hpos')
          as (st1 & H1 & _ & _ & _ & _ & Hc & _).
        rewrite H1 in Hstep. injection Hstep as <-. exact Hc.
      * injection Hstep as <-. by rewrite app_nil_r.
  - injection Hstep as <-. by destruct (Animated.focusable p st n).
  - by injection Hstep as <-.
Qed.

Lemma plain_step_calls p ev st st' :
  Plain.wf p st -> Plain.positioned st ->
  Plain.step p ev st = Normal st' ->
  Plain.onSelectCalls st'
  = Plain.onSelectCalls st ++ logged (options p) (Plain.isOpen st) ev.
Proof.
  intros Hwf Hpos Hstep.
  destruct ev as [| | k target | l | i | n | l];
    cbn [Plain.step Plain.DropdownMenu snd logged] in *; rewrite ?app_nil_r.
  - destruct (plain_onTriggerClick_spec p st Hwf Hpos) as (st1 & H1 & _ & _ & _ & _ & Hc & _).
    congruence.
  - congruence.
  - destruct (plain_listener_spec p target st Hwf Hpos) as (st1 & H1 & _ & _ & _ & Hcalls & _).
    congruence.
  - destruct (plain_resizeListener_spec p l st Hwf) as (st1 & H1 & _ & _ & _ & _ & Hcalls & _).
    congruence.
  - rewrite menuEntries_lookup in Hstep.
    destruct (Plain.isOpen st) eqn:Ho.
    + destruct (options p !! i) as [o |]; simpl in Hstep.
      * destruct (plain_onSelect_invariant p {| id := id o; label := label o |} st
                    Hwf Hpos) as [Hwf' Hpos'].
        destruct (plain_onTriggerClick_spec p _ Hwf' Hpos')
          as (st1 & H1 & _ & _ & _ & _ & Hc & _).
        rewrite H1 in Hstep. injection Hstep as <-. exact Hc.
      * injection Hstep as <-. by rewrite app_nil_r.
    + injection Hstep as <-. destruct (options p !! i); by rewrite app_nil_r.
  - injection Hstep as <-. by destruct (Plain.focusable p st n).
  - by injection Hstep as <-.
Qed.

(** X6. In the four-state variant an option button that is activated while
    the menu is closing calls the callback and opens the dropdown again: from
    the status [CLOSING] the click, bubbling to the trigger, leads to
    [OPENING], with the menu element kept. *)
Theorem X6_select_while_closing_reopens :
  forall p (st : Animated.State) i o,
    Animated.reachable p st ->
    Animated.dropdownStatus st = Animated.CLOSING ->
    options p !! i = Some o ->
    exists st',
      Animated.step p (OptionClick i) st = Normal st' /\
      Animated.onSelectCalls st' = Animated.onSelectCalls st ++ [o] /\
      Animated.dropdownStatus st' = Animated.OPENING /\
      is_Some (Animated.menuRef st').
Proof.
  intros p st i o Hr Hs Hi.
  destruct (anim_reachable_invariant p st Hr) as [Hwf Hpos].
  destruct (anim_step_invariant p (OptionClick i) st Hwf Hpos)
    as (st' & Hstep & (_ & _ & Ho') & _).
  pose proof (anim_step_calls p (OptionClick i) st st' Hwf Hpos Hstep) as Hcalls.
  simpl in Hcalls. rewrite Hi, Hs in Hcalls. simpl in Hcalls.
  assert (Animated.dropdownStatus st' = Animated.OPENING) as Hs'.
  { revert Hstep. simpl. unfold Animated.DropdownMenu. rewrite Hs. simpl.
    rewrite menuEntries_lookup, Hi. simpl.
    destruct (anim_onSelect_invariant {| id := id o; label := label o |} st Hwf Hpos)
      as [Hwf' Hpos'].
    destruct (anim_onTriggerClick_spec p _ Hwf' Hpos') as (st1 & -> & Hs1 & _).
    intros [= <-]. rewrite Hs1. simpl. by rewrite Hs. }
  exists st'. split_and!; try done.
  - rewrite Hcalls. by destruct o.
  - destruct Ho' as (m & -> & _); [by rewrite Hs' | by eexists].
Qed.

Lemma X6_select_while_closing_reopens_witness :
  exists st',
    Animated.step sample_props (OptionClick 1)
      (Animated.after sample_props [TriggerClick; AnimationEnd; TriggerClick]
         layout_below) = Normal st' /\
    Animated.onSelectCalls st' = [ {| id := "2"; label := "Option 2" |} ] /\
    Animated.dropdownStatus st' = Animated.OPENING /\
    is_Some (Animated.menuRef st').
Proof.
  apply (X6_select_while_closing_reopens sample_props
           (Animated.after sample_props [TriggerClick; AnimationEnd; TriggerClick]
              layout_below) 1%nat {| id := "2"; label := "Option 2" |}).
  - apply (anim_reachable_run sample_props [TriggerClick; AnimationEnd; TriggerClick]
             (Animated.mount layout_below));
      [apply Animated.reach_mount | vm_compute; reflexivity].
  - vm_compute; reflexivity.
  - vm_compute; reflexivity.
Defined.

(** X7. Only the activation of an option button of a rendered menu calls
    [onSelect]. In every reachable state a click on the trigger, an
    [animationend], a pointer-down, a resize and a move of the focus leave the
    log of calls as it is, and so does an option click when the menu is not
    rendered or when there is no option at that index. *)
Theorem X7_only_option_clicks_select :
  (forall p (st st' : Animated.State) ev,
     Animated.reachable p st -> Animated.step p ev st = Normal st' ->
     (forall i, ev = OptionClick i ->
                Animated.dropdownStatus st = Animated.CLOSED \/ options p !! i = None) ->
     Animated.onSelectCalls st' = Animated.onSelectCalls st) /\
  (forall p (st st' : Plain.State) ev,
     Plain.reachable p st -> Plain.step p ev st = Normal st' ->
     (forall i, ev = OptionClick i ->
                Plain.isOpen st = false \/ options p !! i = None) ->
     Plain.onSelectCalls st' = Plain.onSelectCalls st).
Proof.
  split.
  - intros p st st' ev Hr Hstep Hev.
    destruct (anim_reachable_invariant p st Hr) as [Hwf Hpos].
    rewrite (anim_step_calls p ev st st' Hwf Hpos Hstep).
    destruct ev as [| | k target | l | i | n | l]; simpl; rewrite ?app_nil_r;
      try done.
    destruct (Hev i eq_refl) as [Hcl | Hnone].
    + rewrite bool_decide_eq_false_2 by auto.
      destruct (options p !! i); by rewrite app_nil_r.
    + rewrite Hnone. by rewrite app_nil_r.
  - intros p st st' ev Hr Hstep Hev.
    destruct (plain_reachable_invariant p st Hr) as [Hwf Hpos].
    rewrite (plain_step_calls p ev st st' Hwf Hpos Hstep).
    destruct ev as [| | k target | l | i | n | l]; simpl; rewrite ?app_nil_r;
      try done.
    destruct (Hev i eq_refl) as [Hcl | Hnone].
    + rewrite Hcl. destruct (options p !! i); by rewrite app_nil_r.
    + rewrite Hnone. by rewrite app_nil_r.
Qed.

Lemma X7_only_option_clicks_select_witness :
  Animated.onSelectCalls
    (Animated.after sample_props [TriggerClick; OptionClick 0; OptionClick 5]
       layout_below)
  = Animated.onSelectCalls
      (Animated.after sample_props [TriggerClick; OptionClick 0] layout_below) /\
  Plain.onSelectCalls (Plain.after sample_props [OptionClick 0] layout_below)
  = Plain.onSelectCalls (Plain.mount layout_below).
Proof.
  split.
  - apply (proj1 X7_only_option_clicks_select sample_props
             (Animated.after sample_props [TriggerClick; OptionClick 0] layout_below)
             (Animated.after sample_props [TriggerClick; OptionClick 0; OptionClick 5]
                layout_below)
             (OptionClick 5)).
    + apply (anim_reachable_run sample_props [TriggerClick; OptionClick 0]
               (Animated.mount layout_below));
        [apply Animated.reach_mount | vm_compute; reflexivity].
    + vm_compute; reflexivity.
    + intros i [= <-]. right. reflexivity.
  - apply (proj2 X7_only_option_clicks_select sample_props (Plain.mount layout_below)
             (Plain.after sample_props [OptionClick 0] layout_below) (OptionClick 0)
             (Plain.reach_mount sample_props layout_below)).
    + vm_compute; reflexivity.
    + intros i _. left. reflexivity.
Defined.

(** X8. The callback only ever receives options of the list: in every reachable
    state each entry of the log of [onSelect] calls is an element of
    [options]. With an empty list of options the callback is never called. *)
Theorem X8_selected_are_options :
  (forall p (st : Animated.State),
     Animated.reachable p st ->
     (forall o, o ∈ Animated.onSelectCalls st -> o ∈ options p) /\
     (options p = [] -> Animated.onSelectCalls st = [])) /\
  (forall p (st : Plain.State),
     Plain.reachable p st ->
     (forall o, o ∈ Plain.onSelectCalls st -> o ∈ options p) /\
     (options p = [] -> Plain.onSelectCalls st = [])).
Proof.
  assert (forall opts b ev o, o ∈ logged opts b ev -> o ∈ opts) as Hlog.
  { intros opts b ev o. destruct ev as [| | | | i | |]; simpl; try by intros ?%elem_of_nil.
    destruct (opts !! i) as [o' |] eqn:Hi; [| by intros ?%elem_of_nil].
    destruct b; [| by intros ?%elem_of_nil].
    intros ->%list_elem_of_singleton. destruct o'. simpl.
    by eapply list_elem_of_lookup_2. }
  assert (forall (calls : list Option) (opts : list Option),
            (forall o, o ∈ calls -> o ∈ opts) -> opts = [] -> calls = []) as Hempty.
  { intros calls opts Hsub ->. destruct calls as [| o calls]; [done |].
    exfalso. eapply not_elem_of_nil, (Hsub o). by left. }
  split.
  - intros p st Hr.
    assert (forall o, o ∈ Animated.onSelectCalls st -> o ∈ options p) as Hsub.
    { induction Hr as [l | ev st st' Hr IH Hstep]; [by intros o ?%elem_of_nil |].
      destruct (anim_reachable_invariant p st Hr) as [Hwf Hpos].
      rewrite (anim_step_calls p ev st st' Hwf Hpos Hstep).
      intros o [Ho | Ho]%elem_of_app; [by apply IH | by eapply Hlog]. }
    split; [done | by apply Hempty].
  - intros p st Hr.
    assert (forall o, o ∈ Plain.onSelectCalls st -> o ∈ options p) as Hsub.
    { induction Hr as [l | ev st st' Hr IH Hstep]; [by intros o ?%elem_of_nil |].
      destruct (plain_reachable_invariant p st Hr) as [Hwf Hpos].
      rewrite (plain_step_calls p ev st st' Hwf Hpos Hstep).
      intros o [Ho | Ho]%elem_of_app; [by apply IH | by eapply Hlog]. }
    split; [done | by apply Hempty].
Qed.

Lemma X8_selected_are_options_witness :
  Animated.onSelectCalls
    (Animated.after {| options := []; selectedOptionId := None |}
       [TriggerClick; OptionClick 0] layout_below) = [] /\
  Plain.onSelectCalls
    (Plain.after {| options := []; selectedOptionId := None |}
       [TriggerClick; OptionClick 0] layout_below) = [] /\
  (Animated.onSelectCalls
     (Animated.after sample_props [TriggerClick; OptionClick 1] layout_below)
   = [ {| id := "2"; label := "Option 2" |} ] /\
   {| id := "2"; label := "Option 2" |} ∈ options sample_props).
Proof.
  split_and!.
  - apply (proj1 X8_selected_are_options {| options := []; selectedOptionId := None |}
             (Animated.after {| options := []; selectedOptionId := None |}
                [TriggerClick; OptionClick 0] layout_below)).
    + apply (anim_reachable_run _ [TriggerClick; OptionClick 0]
               (Animated.mount layout_below));
        [apply Animated.reach_mount | vm_compute; reflexivity].
    + vm_compute; reflexivity.
  - apply (proj2 X8_selected_are_options {| options := []; selectedOptionId := None |}
             (Plain.after {| options := []; selectedOptionId := None |}
                [TriggerClick; OptionClick 0] layout_below)).
    + apply (plain_reachable_run _ [TriggerClick; OptionClick 0]
               (Plain.mount layout_below));
        [apply Plain.reach_mount | vm_compute; reflexivity].
    + vm_compute; reflexivity.
  - vm_compute; reflexivity.
  - apply (proj1 (proj1 X8_selected_are_options sample_props
                    (Animated.after sample_props [TriggerClick; OptionClick 1]
                       layout_below)
                    (anim_reachable_run sample_props [TriggerClick; OptionClick 1]
                       (Animated.mount layout_below) _
                       (Animated.reach_mount sample_props layout_below)
                       eq_refl))).
    vm_compute. apply list_elem_of_here.
Defined.

Lemma plain_set_layout_rendered p q l1 l2 st :
  Plain.set_layout l2 (Plain.setMenuPosition p q (Plain.set_layout l1 st))
  = Plain.setMenuPosition p q (Plain.set_layout l2 st).
Proof.
  unfold Plain.setMenuPosition, Plain.render. simpl.
  destruct (Plain.isOpen st); [done |].
  by destruct (contains MenuList (Plain.activeElement st)).
Qed.

(** X9. The position recompute is idempotent: run again on its own result,
    with the layout unchanged, it changes nothing. In the four-state variant
    this holds in any state, in the two-state variant in every reachable
    one. *)
Theorem X9_recompute_idempotent :
  (forall st st1 : Animated.State,
     Animated.updateMenuCoordinates st = Normal st1 ->
     Animated.updateMenuCoordinates st1 = Normal st1) /\
  (forall p (st st1 : Plain.State),
     Plain.reachable p st ->
     Plain.updateMenuCoordinates p st = Normal st1 ->
     Plain.updateMenuCoordinates p st1 = Normal st1).
Proof.
  split.
  - intros st st1.
    destruct (Animated.dropdownRef st) as [d |] eqn:Hd;
      [destruct (Animated.menuRef st) as [m |] eqn:Hm |].
    + rewrite (anim_update_placed st d m Hd Hm). intros [= <-].
      erewrite anim_update_placed; [| exact Hd | reflexivity].
      simpl. by rewrite anim_placed_absorb.
    + rewrite anim_updateMenuCoordinates_unmounted by auto. intros [= <-].
      apply anim_updateMenuCoordinates_unmounted. auto.
    + rewrite anim_updateMenuCoordinates_unmounted by auto. intros [= <-].
      apply anim_updateMenuCoordinates_unmounted. auto.
  - intros p st st1 Hr.
    destruct (plain_reachable_invariant p st Hr) as [(Hd & Hm & _) _].
    rewrite (plain_updateMenuCoordinates_mounted p st _ Hd). intros [= <-].
    destruct (plain_setMenuPosition_refs p
                (spec_position (triggerRect (Plain.layout st))
                   (Plain.measuredMenuHeight st) (innerHeight (Plain.layout st))) st)
      as [Hd' Hm'].
    erewrite plain_updateMenuCoordinates_mounted by (rewrite Hd'; exact Hd).
    rewrite (plain_measuredMenuHeight_rendered p _ st Hm).
    rewrite (proj1 (proj2 (proj2 (plain_setMenuPosition_frame p _ st)))).
    by rewrite plain_setMenuPosition_twice.
Qed.

Lemma X9_recompute_idempotent_witness :
  Animated.updateMenuCoordinates
    (Animated.after sample_props [TriggerClick] layout_above)
  = Normal (Animated.after sample_props [TriggerClick] layout_above) /\
  Plain.updateMenuCoordinates sample_props
    (Plain.after sample_props [Resize layout_below] layout_below)
  = Normal (Plain.after sample_props [Resize layout_below] layout_below).
Proof.
  split.
  - apply (proj1 X9_recompute_idempotent
             (Animated.after sample_props [TriggerClick] layout_above)).
    vm_compute; reflexivity.
  - apply (proj2 X9_recompute_idempotent sample_props (Plain.mount layout_below)).
    + apply Plain.reach_mount.
    + vm_compute; reflexivity.
Defined.

(** X10. Of two window resizes in a row the second decides: in every reachable
    state the state after a resize to [l1] followed by a resize to [l2] is the
    state after the resize to [l2] alone. *)
Theorem X10_last_resize_wins :
  (forall p (st st1 st2 : Animated.State) l1 l2,
     Animated.reachable p st ->
     Animated.step p (Resize l1) st = Normal st1 ->
     Animated.step p (Resize l2) st1 = Normal st2 ->
     Animated.step p (Resize l2) st = Normal st2) /\
  (forall p (st st1 st2 : Plain.State) l1 l2,
     Plain.reachable p st ->
     Plain.step p (Resize l1) st = Normal st1 ->
     Plain.step p (Resize l2) st1 = Normal st2 ->
     Plain.step p (Resize l2) st = Normal st2).
Proof.
  split.
  - intros p st st1 st2 l1 l2 Hr.
    destruct (anim_reachable_invariant p st Hr) as [(Hd & _) _].
    simpl. unfold Animated.resizeListener.
    destruct (Animated.menuRef st) as [m |] eqn:Hm.
    + erewrite anim_update_placed by (simpl; eauto). intros [= <-].
      erewrite anim_update_placed by (simpl; eauto). intros [= <-].
      erewrite anim_update_placed by (simpl; eauto).
      simpl. by rewrite anim_placed_absorb.
    + rewrite anim_updateMenuCoordinates_unmounted by (right; exact Hm).
      intros [= <-].
      rewrite anim_updateMenuCoordinates_unmounted by (right; exact Hm).
      intros [= <-].
      by rewrite anim_updateMenuCoordinates_unmounted by (right; exact Hm).
  - intros p st st1 st2 l1 l2 Hr.
    destruct (plain_reachable_invariant p st Hr) as [(Hd & Hm & _) _].
    simpl. unfold Plain.resizeListener.
    erewrite plain_updateMenuCoordinates_mounted by (simpl; exact Hd).
    intros [= <-].
    erewrite plain_updateMenuCoordinates_mounted
      by (cbn [Plain.dropdownRef Plain.set_layout];
          rewrite (proj1 (plain_setMenuPosition_refs p _ _)); exact Hd).
    intros [= <-].
    erewrite plain_updateMenuCoordinates_mounted by (simpl; exact Hd).
    rewrite plain_set_layout_rendered.
    rewrite (plain_measuredMenuHeight_rendered p _ (Plain.set_layout l2 st)) by exact Hm.
    by rewrite plain_setMenuPosition_twice.
Qed.

Lemma X10_last_resize_wins_witness :
  Animated.step sample_props (Resize layout_below)
    (Animated.after sample_props [TriggerClick] layout_below)
  = Normal (Animated.after sample_props
              [TriggerClick; Resize layout_above; Resize layout_below] layout_below) /\
  Plain.step sample_props (Resize layout_below)
    (Plain.after sample_props [TriggerClick] layout_below)
  = Normal (Plain.after sample_props
              [TriggerClick; Resize layout_above; Resize layout_below] layout_below).
Proof.
  split.
  - apply (proj1 X10_last_resize_wins sample_props
             (Animated.after sample_props [TriggerClick] layout_below)
             (Animated.after sample_props [TriggerClick; Resize layout_above]
                layout_below)
             _ layout_above layout_below).
    + apply (anim_reachable_run sample_props [TriggerClick]
               (Animated.mount layout_below));
        [apply Animated.reach_mount | vm_compute; reflexivity].
    + vm_compute; reflexivity.
    + vm_compute; reflexivity.
  - apply (proj2 X10_last_resize_wins sample_props
             (Plain.after sample_props [TriggerClick] layout_below)
             (Plain.after sample_props [TriggerClick; Resize layout_above]
                layout_below)
             _ layout_above layout_below).
    + apply (plain_reachable_run sample_props [TriggerClick]
               (Plain.mount layout_below));
        [apply Plain.reach_mount | vm_compute; reflexivity].
    + vm_compute; reflexivity.
    + vm_compute; reflexivity.
Defined.

(** X12. An [animationend] event that arrives outside a transition changes
    nothing: in every reachable state of the four-state variant with status
    [OPEN] or [CLOSED] the state after the event is the state before it. *)
Theorem X12_animationend_at_rest :
  forall p (st : Animated.State),
    Animated.reachable p st ->
    Animated.dropdownStatus st = Animated.OPEN \/
    Animated.dropdownStatus st = Animated.CLOSED ->
    Animated.step p AnimationEnd st = Normal st.
Proof.
  intros p st Hr Hs. destruct (anim_reachable_invariant p st Hr) as [(_ & Hc & Ho) _].
  simpl. destruct Hs as [Hs | Hs].
  - destruct Ho as (m & -> & ->); [by rewrite Hs |]. by rewrite Hs.
  - by rewrite (Hc Hs).
Qed.

Lemma X12_animationend_at_rest_witness :
  Animated.step sample_props AnimationEnd
    (Animated.after sample_props [TriggerClick; AnimationEnd] layout_below)
  = Normal (Animated.after sample_props [TriggerClick; AnimationEnd] layout_below).
Proof.
  apply (X12_animationend_at_rest sample_props
           (Animated.after sample_props [TriggerClick; AnimationEnd] layout_below)).
  - apply (anim_reachable_run sample_props [TriggerClick; AnimationEnd]
             (Animated.mount layout_below));
      [apply Animated.reach_mount | vm_compute; reflexivity].
  - left. vm_compute; reflexivity.
Defined.

(** X13. The option buttons of the two-state menu are in tab order after the
    trigger and in the order of the list: whenever the menu is rendered, its
    buttons have the tab indices [1, 2, ..., n], each above the trigger's [0],
    and they carry the options' ids, labels and callback arguments in list
    order, one button per option. *)
Theorem X13_tab_order :
  forall p (st : Plain.State) style buttons,
    PlainView.menu (PlainView.Dropdown p st) = Some (style, buttons) ->
    PlainView.tabIndex <$> buttons = seq 1 (length (options p)) /\
    PlainView.entry <$> buttons = menuEntries (options p) /\
    (forall b, b ∈ buttons ->
       (PlainView.triggerTabIndex (PlainView.Dropdown p st) < PlainView.tabIndex b)%nat).
Proof.
  intros p st style buttons. simpl.
  destruct (Plain.isOpen st); [| done]. intros [= _ <-].
  split_and!.
  - apply list_eq. intros i. rewrite list_lookup_fmap.
    unfold PlainView.optionButtons. rewrite list_lookup_imap.
    destruct (options p !! i) as [o |] eqn:Hi; simpl.
    + symmetry. rewrite lookup_seq. split; [lia |]. by eapply lookup_lt_Some.
    + symmetry. apply lookup_seq_ge. by apply lookup_ge_None.
  - apply list_eq. intros i. rewrite list_lookup_fmap.
    unfold PlainView.optionButtons, menuEntries.
    rewrite list_lookup_imap, list_lookup_fmap. by destruct (options p !! i).
  - intros b [i Hb]%list_elem_of_lookup. revert Hb.
    unfold PlainView.optionButtons. rewrite list_lookup_imap.
    destruct (options p !! i); simpl; [| done]. intros [= <-]. simpl. lia.
Qed.

Lemma X13_tab_order_witness :
  exists buttons,
    PlainView.tabIndex <$> buttons = [1; 2]%nat /\
    PlainView.entry <$> buttons = menuEntries (options sample_props).
Proof.
  eexists.
  destruct (X13_tab_order sample_props
              (Plain.after sample_props [TriggerClick] layout_below) _ _ eq_refl)
    as (Htab & Hentries & _).
  split; [exact Htab | exact Hentries].
Defined.

(** X14. The style object of the two-state menu, property by property:
    [position] is always ["fixed"]; each of [left], [width], [top] and
    [bottom] is present, with the coordinate as its value, when the
    coordinate is a number other than 0, -0 and NaN, and absent when it is
    [null]; and there is no other property. *)
Theorem X14_menu_style_properties :
  forall q : PositionCoordinates,
    Plain.menuStyle q !! "position" = Some (Kw "fixed") /\
    (forall n, Pos.left q = Some n -> is_zero n = false -> is_nan n = false ->
               Plain.menuStyle q !! "left" = Some (Num n)) /\
    (forall n, Pos.width q = Some n -> is_zero n = false -> is_nan n = false ->
               Plain.menuStyle q !! "width" = Some (Num n)) /\
    (forall n, Pos.top q = Some n -> is_zero n = false -> is_nan n = false ->
               Plain.menuStyle q !! "top" = Some (Num n)) /\
    (forall n, Pos.bottom q = Some n -> is_zero n = false -> is_nan n = false ->
               Plain.menuStyle q !! "bottom" = Some (Num n)) /\
    (Pos.left q = None -> Plain.menuStyle q !! "left" = None) /\
    (Pos.width q = None -> Plain.menuStyle q !! "width" = None) /\
    (Pos.top q = None -> Plain.menuStyle q !! "top" = None) /\
    (Pos.bottom q = None -> Plain.menuStyle q !! "bottom" = None) /\
    (forall k, k ∉ ["position"; "left"; "width"; "top"; "bottom"] ->
               Plain.menuStyle q !! k = None).
Proof.
  assert (forall name n (obj : gmap string css_value),
            is_zero n = false -> is_nan n = false ->
            Plain.spread_and name (Some n) obj !! name = Some (Num n))
    as Hset.
  { intros name n obj Hz Hn. unfold Plain.spread_and, truthy_num.
    rewrite Hz, Hn. simpl. apply lookup_insert_eq. }
  intros q. unfold Plain.menuStyle. split_and!.
  - by rewrite !plain_spread_and_other.
  - intros n -> Hz Hn. rewrite !plain_spread_and_other by done. by apply Hset.
  - intros n -> Hz Hn. rewrite !plain_spread_and_other by done. by apply Hset.
  - intros n -> Hz Hn. rewrite !plain_spread_and_other by done. by apply Hset.
  - intros n -> Hz Hn. by apply Hset.
  - intros ->. rewrite ?plain_spread_and_other by done. simpl.
    by rewrite ?plain_spread_and_other.
  - intros ->. rewrite ?plain_spread_and_other by done. simpl.
    by rewrite ?plain_spread_and_other.
  - intros ->. rewrite ?plain_spread_and_other by done. simpl.
    by rewrite ?plain_spread_and_other.
  - intros ->. rewrite ?plain_spread_and_other by done. simpl.
    by rewrite ?plain_spread_and_other.
  - intros k Hk. rewrite !plain_spread_and_other by (intros <-; apply Hk; set_solver).
    rewrite lookup_insert_ne by (intros <-; apply Hk; set_solver). done.
Qed.

Lemma X14_menu_style_properties_witness :
  Plain.menuStyle
    {| Pos.top := None; Pos.bottom := Some 20; Pos.left := Some 100;
       Pos.width := Some 200 |} !! "bottom" = Some (Num 20).
Proof.
  apply (X14_menu_style_properties
           {| Pos.top := None; Pos.bottom := Some 20; Pos.left := Some 100;
              Pos.width := Some 200 |}).
  - vm_compute; reflexivity.
  - reflexivity.
  - reflexivity.
Defined.

(** The handlers read [options] only, so a state reached in the host is
    reached with any fixed [selectedOptionId]. *)
Lemma hosted_animated_reachable opts st :
  App.reachableAnimated opts st -> Animated.reachable (App.hostProps opts []) st.
Proof.
  induction 1 as [l | ev st st' _ IH Hstep]; [apply Animated.reach_mount |].
  eapply Animated.reach_step; [exact IH |]. exact Hstep.
Qed.

Lemma hosted_plain_reachable opts st :
  App.reachablePlain opts st -> Plain.reachable (App.hostProps opts []) st.
Proof.
  induction 1 as [l | ev st st' _ IH Hstep]; [apply Plain.reach_mount |].
  eapply Plain.reach_step; [exact IH |]. exact Hstep.
Qed.

Lemma selectedOptionId_last calls o :
  App.selectedOptionId (calls ++ [o]) = Some (id o).
Proof. unfold App.selectedOptionId. by rewrite foldl_app. Qed.

Lemma selectedOption_null opts : selectedOption opts None = None.
Proof. unfold selectedOption. by induction opts. Qed.

(** With ids that are all different, [find] gets the option of that id. *)
Lemma selectedOption_unique opts i o :
  NoDup (id <$> opts) -> opts !! i = Some o ->
  selectedOption opts (Some (id o)) = Some o.
Proof.
  unfold selectedOption. revert i. induction opts as [| o' opts IH]; [done |].
  intros i Hnd Hi. apply NoDup_cons in Hnd as [Hnotin Hnd]. simpl.
  destruct i as [| i]; simpl in Hi.
  - injection Hi as ->. by rewrite String.eqb_refl.
  - destruct (String.eqb_spec (id o') (id o)) as [Heq | _]; [| by eapply IH].
    exfalso. apply Hnotin. rewrite Heq. apply list_elem_of_fmap.
    exists o. split; [done |]. by eapply list_elem_of_lookup_2.
Qed.

(** X15. Selection and display compose in a host that, like [App], keeps
    [selectedOptionId] in its state and sets it to the id of the selected
    option. Before any selection the trigger shows ["Select ..."]. After the
    activation of the button of an option the host's [selectedOptionId] is
    that option's id, and, when the ids of the list are all different and the
    option's label is not empty, the trigger shows that option's label. *)
Theorem X15_host_shows_selection :
  forall (opts : list Option) i o,
    opts !! i = Some o ->
    (forall l,
       AnimatedView.triggerLabel
         (AnimatedView.Dropdown (App.hostProps opts []) (Animated.mount l))
       = "Select ..." /\
       PlainView.triggerLabel
         (PlainView.Dropdown (App.hostProps opts []) (Plain.mount l))
       = "Select ...") /\
    (forall st st' : Animated.State,
       App.reachableAnimated opts st ->
       Animated.dropdownStatus st <> Animated.CLOSED ->
       Animated.step (App.hostProps opts (Animated.onSelectCalls st)) (OptionClick i) st
       = Normal st' ->
       selectedOptionId (App.hostProps opts (Animated.onSelectCalls st')) = Some (id o) /\
       (NoDup (id <$> opts) -> label o <> EmptyString ->
        AnimatedView.triggerLabel
          (AnimatedView.Dropdown (App.hostProps opts (Animated.onSelectCalls st')) st')
        = label o)) /\
    (forall st st' : Plain.State,
       App.reachablePlain opts st ->
       Plain.isOpen st = true ->
       Plain.step (App.hostProps opts (Plain.onSelectCalls st)) (OptionClick i) st
       = Normal st' ->
       selectedOptionId (App.hostProps opts (Plain.onSelectCalls st')) = Some (id o) /\
       (NoDup (id <$> opts) -> label o <> EmptyString ->
        PlainView.triggerLabel
          (PlainView.Dropdown (App.hostProps opts (Plain.onSelectCalls st')) st')
        = label o)).
Proof.
  intros opts i o Hi.
  assert (forall calls,
            selectedOptionId (App.hostProps opts (calls ++ [ {| id := id o; label := label o |} ]))
            = Some (id o) /\
            (NoDup (id <$> opts) -> label o <> EmptyString ->
             triggerText opts
               (App.selectedOptionId (calls ++ [ {| id := id o; label := label o |} ]))
             = label o)) as Hshow.
  { intros calls. simpl. rewrite selectedOptionId_last. simpl. split; [done |].
    intros Hnd Hl. unfold triggerText.
    rewrite (selectedOption_unique opts i o Hnd Hi). simpl.
    by destruct (String.eqb_spec (label o) EmptyString). }
  split_and!.
  - intros l. simpl. unfold triggerText. by rewrite selectedOption_null.
  - intros st st' Hr Hop Hstep.
    apply hosted_animated_reachable in Hr.
    destruct (anim_reachable_invariant _ st Hr) as [Hwf Hpos].
    pose proof (anim_step_calls (App.hostProps opts (Animated.onSelectCalls st)) _
                  st st' Hwf Hpos Hstep) as Hcalls.
    simpl in Hcalls. rewrite Hi, bool_decide_eq_true_2 in Hcalls by done.
    rewrite Hcalls. apply Hshow.
  - intros st st' Hr Hop Hstep.
    apply hosted_plain_reachable in Hr.
    destruct (plain_reachable_invariant _ st Hr) as [Hwf Hpos].
    pose proof (plain_step_calls (App.hostProps opts (Plain.onSelectCalls st)) _
                  st st' Hwf Hpos Hstep) as Hcalls.
    simpl in Hcalls. rewrite Hi, Hop in Hcalls.
    rewrite Hcalls. apply Hshow.
Qed.

Lemma X15_host_shows_selection_witness :
  AnimatedView.triggerLabel
    (AnimatedView.Dropdown
       (App.props
          (Animated.onSelectCalls
             (Animated.after (App.props []) [TriggerClick; OptionClick 2] layout_below)))
       (Animated.after (App.props []) [TriggerClick; OptionClick 2] layout_below))
  = "Option 3".
Proof.
  apply (proj1 (proj2 (X15_host_shows_selection App.options 2%nat
                         {| id := "3"; label := "Option 3" |} eq_refl))
           (Animated.after (App.props []) [TriggerClick] layout_below)
           (Animated.after (App.props []) [TriggerClick; OptionClick 2] layout_below)).
  - apply (App.animated_step App.options TriggerClick (Animated.mount layout_below));
      [apply App.animated_mount | vm_compute; reflexivity].
  - vm_compute. discriminate.
  - vm_compute; reflexivity.
  - apply (bool_decide_unpack _). vm_compute. exact I.
  - discriminate.
Defined.

End Extras.
